(** * stalk: the watch loop, its resource cache and the diff pre-processor

    A shallow embedding of [main.go] (package [main]: [resourceCache],
    [watcher], [diffObjects]) and of the differ of package [diff]
    ([Differ.PrintDiff], [Differ.preprocess], [objectKey], [diffTitle],
    [yamlEncode]).

    Go pointers to [unstructured.Unstructured] are locations of an explicit
    heap, so that [DeepCopy] and in-place mutation keep their meaning.  What
    the program hands to libraries whose code is not part of the repository
    (YAML encoding, difflib, [strings.TrimSpace]) is recorded as a term naming
    the call and its arguments. *)

From Stdlib Require Import Ascii String ZArith.
From stdpp Require Import gmap strings list fin_maps pretty.

Set Warnings "-register-all".
Set Default Proof Using "Type".

Open Scope string_scope.

(** ** Documents: [map[string]interface{}] as decoded from JSON *)

Inductive value : Type :=
| VNull
| VBool (b : bool)
| VInt (n : Z)
| VString (s : string)
| VSlice (l : list value)
| VMap (m : gmap string value).

(** [unstructured.Unstructured]: a struct with the single field [Object]. *)
Record Unstructured : Type := mkUnstructured { Object : gmap string value }.

(** [unstructured.NestedFieldNoCopy], started at [val]: walk down [fields],
    giving up when a step is not a map or lacks the field. *)
Fixpoint NestedFieldNoCopy (val : value) (fields : list string) : option value :=
  match fields with
  | [] => Some val
  | field :: rest =>
      match val with
      | VMap m =>
          match m !! field with
          | Some v => NestedFieldNoCopy v rest
          | None => None
          end
      | _ => None
      end
  end.

(** [getNestedString]: the string at the path, or the empty string when the
    path is missing or holds something else. *)
Definition getNestedString (obj : gmap string value) (fields : list string) : string :=
  match NestedFieldNoCopy (VMap obj) fields with
  | Some (VString s) => s
  | _ => ""
  end.

(** [getNestedInt64]: the integer at the path, or 0. *)
Definition getNestedInt64 (obj : gmap string value) (fields : list string) : Z :=
  match NestedFieldNoCopy (VMap obj) fields with
  | Some (VInt n) => n
  | _ => 0%Z
  end.

(** [unstructured.RemoveNestedField]: delete the last field of the path from
    the map the rest of the path leads to; nothing happens when the path
    leaves the maps.  The program only calls it with a path of two fields; an
    empty path, on which the Go function panics, is left alone here. *)
Fixpoint RemoveNestedField (obj : gmap string value) (fields : list string) : gmap string value :=
  match fields with
  | [] => obj
  | [field] => delete field obj
  | field :: rest =>
      match obj !! field with
      | Some (VMap x) => <[field := VMap (RemoveNestedField x rest)]> obj
      | _ => obj
      end
  end.

Definition GetName (u : Unstructured) : string :=
  getNestedString (Object u) ["metadata"; "name"].

Definition GetNamespace (u : Unstructured) : string :=
  getNestedString (Object u) ["metadata"; "namespace"].

Definition GetKind (u : Unstructured) : string :=
  getNestedString (Object u) ["kind"].

Definition GetResourceVersion (u : Unstructured) : string :=
  getNestedString (Object u) ["metadata"; "resourceVersion"].

Definition GetGeneration (u : Unstructured) : Z :=
  getNestedInt64 (Object u) ["metadata"; "generation"].

(** [u.SetManagedFields(nil)], the only way the program calls it:
    [RemoveNestedField(u.Object, "metadata", "managedFields")]. *)
Definition SetManagedFieldsNil (u : Unstructured) : Unstructured :=
  mkUnstructured (RemoveNestedField (Object u) ["metadata"; "managedFields"]).

(** Whether the document carries a [metadata.managedFields] subtree. *)
Definition hasManagedFields (u : Unstructured) : bool :=
  match NestedFieldNoCopy (VMap (Object u)) ["metadata"; "managedFields"] with
  | Some _ => true
  | None => false
  end.

(** ** Text handed to and received from libraries *)

(** [difflib.UnifiedDiff], with the fields the program sets. *)
Record UnifiedDiff (L : Type) : Type := mkUnifiedDiff {
  A : L;
  B : L;
  FromFile : string;
  ToFile : string;
  Context : Z
}.
Arguments mkUnifiedDiff {L} _ _ _ _ _.
Arguments A {L} _.
Arguments B {L} _.
Arguments FromFile {L} _.
Arguments ToFile {L} _.
Arguments Context {L} _.

(** A string of the program: a literal, or the result of a library call on
    the arguments shown.  [YamlMarshal o] is [string(encoded)] for
    [encoded, _ := yaml.Marshal(o)], [o] being a possibly nil pointer whose
    target is the document given. *)
Inductive text : Type :=
| Lit (s : string)
| YamlMarshal (o : option Unstructured)
| TrimSpace (t : text)
| GetUnifiedDiffString (d : UnifiedDiff lines)
with lines : Type :=
| SplitLines (t : text).

Definition nl : string := String (ascii_of_nat 10) "".

(** ** The heap and the state of one watcher *)

Definition loc := positive.

(** [resources] is the map of the watcher's [resourceCache]; [stdout] is what
    it has printed, oldest first. *)
Record state : Type := mkState {
  heap : gmap loc Unstructured;
  resources : gmap string loc;
  stdout : list text
}.

Definition M (X : Type) : Type := state -> option (X * state).

Definition ret {X} (x : X) : M X := fun s => Some (x, s).

Definition bind {X Y} (m : M X) (k : X -> M Y) : M Y :=
  fun s => match m s with
           | Some (x, s') => k x s'
           | None => None
           end.

Declare Scope go_scope.
Delimit Scope go_scope with go.
Notation "x <- m ; k" := (bind m (fun x => k))
  (at level 20, m at level 100, k at level 200, only parsing) : go_scope.
Notation "m ;; k" := (bind m (fun _ => k))
  (at level 100, k at level 200, only parsing, right associativity) : go_scope.
Open Scope go_scope.

(** A new object: the heap grows by a location not in use. *)
Definition alloc (v : Unstructured) : M loc :=
  fun s =>
    let l := fresh (dom (heap s)) in
    Some (l, mkState (<[l := v]> (heap s)) (resources s) (stdout s)).

(** Reading through a pointer; a pointer to nothing is a panic ([None]). *)
Definition load (l : loc) : M Unstructured :=
  fun s => match heap s !! l with
           | Some v => Some (v, s)
           | None => None
           end.

(** Writing through a pointer. *)
Definition store (l : loc) (v : Unstructured) : M unit :=
  fun s => match heap s !! l with
           | Some _ => Some (tt, mkState (<[l := v]> (heap s)) (resources s) (stdout s))
           | None => None
           end.

Definition getResources : M (gmap string loc) :=
  fun s => Some (resources s, s).

Definition setResources (r : gmap string loc) : M unit :=
  fun s => Some (tt, mkState (heap s) r (stdout s)).

(** [fmt.Printf]: the pieces of the formatted string, appended to the output. *)
Definition Printf (pieces : list text) : M unit :=
  fun s => Some (tt, mkState (heap s) (resources s) (stdout s ++ pieces)).

(** [obj.DeepCopy()]: a new object with the content of [obj]. *)
Definition DeepCopy (obj : loc) : M loc :=
  v <- load obj;
  alloc v.

(** ** [resourceCache] *)

Definition newResourceCache : M unit :=
  setResources ∅.

(** [fmt.Sprintf("%s/%s", obj.GetNamespace(), obj.GetName())] *)
Definition cacheKey (v : Unstructured) : string :=
  GetNamespace v ++ "/" ++ GetName v.

Definition rc_objectKey (obj : loc) : M string :=
  v <- load obj;
  ret (cacheKey v).

Definition rc_Get (obj : loc) : M (option loc) :=
  key <- rc_objectKey obj;
  rs <- getResources;
  match rs !! key with
  | None => ret None
  | Some existing =>
      c <- DeepCopy existing;
      ret (Some c)
  end.

Definition rc_Set (obj : loc) : M unit :=
  key <- rc_objectKey obj;
  c <- DeepCopy obj;
  rs <- getResources;
  setResources (<[key := c]> rs).

Definition rc_Delete (obj : loc) : M unit :=
  key <- rc_objectKey obj;
  rs <- getResources;
  setResources (delete key rs).

(** ** The watch loop *)

(** [watch.EventType] *)
Inductive EventType : Type := Added | Modified | Deleted | Bookmark | Error.

(** [event.Object], a [runtime.Object]: a [*unstructured.Unstructured] whose
    target is the document given, or an object of another type. *)
Inductive RuntimeObject : Type :=
| UnstructuredObject (u : Unstructured)
| OtherObject.

Record Event : Type := mkEvent { ev_Type : EventType; ev_Object : RuntimeObject }.

(** [yaml.Marshal(o)] of a possibly nil pointer, the error dropped. *)
Definition yaml_Marshal (o : option loc) : M text :=
  match o with
  | None => ret (YamlMarshal None)
  | Some l =>
      v <- load l;
      ret (YamlMarshal (Some v))
  end.

Definition diffObjects (a b : option loc) : M text :=
  encodedA <- yaml_Marshal a;
  encodedB <- yaml_Marshal b;
  let diff := mkUnifiedDiff (SplitLines encodedA) (SplitLines encodedB)
                            "Previous" "Current" 3 in
  ret (GetUnifiedDiffString diff).

Definition rule : string := "---------------------------------------------".

(** The body of the [for event := range w.ResultChan()] loop.  The object a
    received event points to is an object of its own: it enters the heap at a
    location not in use. *)
Definition watcher_body (hideManagedFields : bool) (event : Event) : M unit :=
  match ev_Object event with
  | OtherObject => ret tt
  | UnstructuredObject u =>
      metaObject <- alloc u;
      (if hideManagedFields
       then (v <- load metaObject; store metaObject (SetManagedFieldsNil v))
       else ret tt);;
      m <- load metaObject;
      let key := GetName m in
      let key := let ns := GetNamespace m in
                 if decide (ns = "") then key else ns ++ "/" ++ key in
      match ev_Type event with
      | Added =>
          encoded <- yaml_Marshal (Some metaObject);
          Printf [Lit ("--- CREATE --- " ++ key ++ " " ++ rule ++ nl)];;
          Printf [TrimSpace encoded; Lit (nl ++ nl)];;
          rc_Set metaObject
      | Modified =>
          previousObject <- rc_Get metaObject;
          rc_Set metaObject;;
          Printf [Lit ("--- UPDATE --- " ++ key ++ " " ++ rule ++ nl)];;
          d <- diffObjects previousObject (Some metaObject);
          Printf [TrimSpace d; Lit (nl ++ nl)]
      | Deleted =>
          rc_Delete metaObject;;
          Printf [Lit ("--- DELETE --- " ++ key ++ " " ++ rule ++ nl)]
      | _ => ret tt
      end
  end.

Fixpoint watcher_loop (hideManagedFields : bool) (events : list Event) : M unit :=
  match events with
  | [] => ret tt
  | event :: rest =>
      watcher_body hideManagedFields event;;
      watcher_loop hideManagedFields rest
  end.

(** [watcher], over the events the channel delivers before it is closed. *)
Definition watcher (events : list Event) (hideManagedFields : bool) : M unit :=
  newResourceCache;;
  watcher_loop hideManagedFields events.

(** ** Package [diff] *)

Module diff.

(** A Go [error], by its message. *)
Definition error : Type := string.

Inductive result (X : Type) : Type :=
| Ok (x : X)
| Err (e : error).
Arguments Ok {X} _.
Arguments Err {X} _.

(** [fmt.Errorf(prefix + "%w", err)] *)
Definition Errorf (prefix : string) (err : error) : error := prefix ++ err.

(** The fields of [Options] the differ reads.  [Theme] is the colour theme
    type of cdiff, [JSONPath] a compiled JSON path, [Path] a parsed exclude
    path. *)
Record Options (Theme JSONPath Path : Type) : Type := mkOptions {
  UpdateColorTheme : Theme;
  CreateColorTheme : Theme;
  DeleteColorTheme : Theme;
  ContextLines : Z;
  compiledJSONPath : option JSONPath;
  parsedExcludePaths : list Path
}.
Arguments mkOptions {Theme JSONPath Path} _ _ _ _ _ _.
Arguments UpdateColorTheme {Theme JSONPath Path} _.
Arguments CreateColorTheme {Theme JSONPath Path} _.
Arguments DeleteColorTheme {Theme JSONPath Path} _.
Arguments ContextLines {Theme JSONPath Path} _.
Arguments compiledJSONPath {Theme JSONPath Path} _.
Arguments parsedExcludePaths {Theme JSONPath Path} _.

(** A [map[string]interface{}] variable: [None] is the nil map. *)
Definition genericMap : Type := option (gmap string value).

(** What [json.Marshal] is called on. *)
Inductive any : Type :=
| AnyUnstructured (u : Unstructured)
| AnyValue (v : value)
| AnyMap (m : genericMap).

(** The functions of other packages the differ calls.  [json_Unmarshal data
    dst] decodes into a map variable holding [dst] and gives its new content;
    [RemovePath] is [maputil.RemovePath]; [formatPath] and [Format_RFC3339]
    are the [%v] of a path and [t.Format(time.RFC3339)]; [Kind] is
    [obj.GroupVersionKind().Kind]. *)
Record Library (JSONPath Path Time : Type) : Type := mkLibrary {
  json_Marshal : any -> result string;
  json_Unmarshal : string -> genericMap -> result genericMap;
  FindResults : JSONPath -> genericMap -> result (list (list value));
  RemovePath : genericMap -> Path -> result genericMap;
  JSONToYAML : string -> result string;
  formatPath : Path -> string;
  Format_RFC3339 : Time -> string;
  Kind : Unstructured -> string
}.
Arguments json_Marshal {JSONPath Path Time} _ _.
Arguments json_Unmarshal {JSONPath Path Time} _ _ _.
Arguments FindResults {JSONPath Path Time} _ _ _.
Arguments RemovePath {JSONPath Path Time} _ _ _.
Arguments JSONToYAML {JSONPath Path Time} _ _.
Arguments formatPath {JSONPath Path Time} _ _.
Arguments Format_RFC3339 {JSONPath Path Time} _ _.
Arguments Kind {JSONPath Path Time} _ _.

(** A line of the logger. *)
Inductive logEntry : Type :=
| Warnf (format : string) (err : error).

(** [cdiff.Diff(old, new, cdiff.WordByWord)] rendered by
    [UnifiedWithGooKitColor(titleA, titleB, context, theme)]. *)
Record colorDiff (Theme : Type) : Type := mkColorDiff {
  cd_old : string;
  cd_new : string;
  cd_titleA : string;
  cd_titleB : string;
  cd_context : Z;
  cd_theme : Theme
}.
Arguments mkColorDiff {Theme} _ _ _ _ _ _.
Arguments cd_old {Theme} _.
Arguments cd_new {Theme} _.
Arguments cd_titleA {Theme} _.
Arguments cd_titleB {Theme} _.
Arguments cd_context {Theme} _.
Arguments cd_theme {Theme} _.

(** What a differ has written: the lines of its logger and the diffs given
    to [color.Print], oldest first. *)
Record world (Theme : Type) : Type := mkWorld {
  log : list logEntry;
  printed : list (colorDiff Theme)
}.
Arguments mkWorld {Theme} _ _.
Arguments log {Theme} _.
Arguments printed {Theme} _.

(** A call that may write and may return an error. *)
Definition R (Theme X : Type) : Type := world Theme -> result X * world Theme.

Definition ret {Theme X} (x : X) : R Theme X := fun w => (Ok x, w).

Definition fail {Theme X} (e : error) : R Theme X := fun w => (Err e, w).

Definition bind {Theme X Y} (m : R Theme X) (k : X -> R Theme Y) : R Theme Y :=
  fun w => match m w with
           | (Ok x, w') => k x w'
           | (Err e, w') => (Err e, w')
           end.

Declare Scope diff_scope.
Delimit Scope diff_scope with diff.
Notation "x <- m ; k" := (bind m (fun x => k))
  (at level 20, m at level 100, k at level 200, only parsing) : diff_scope.
Notation "m ;; k" := (bind m (fun _ => k))
  (at level 100, k at level 200, only parsing, right associativity) : diff_scope.
Local Open Scope diff_scope.

(** [x, err := call; if err != nil { return "", fmt.Errorf(prefix + "%w", err) }] *)
Definition try {Theme X} (prefix : string) (r : result X) : R Theme X :=
  match r with
  | Ok x => ret x
  | Err e => fail (Errorf prefix e)
  end.

(** [m], its error wrapped the same way. *)
Definition wrap {Theme X} (prefix : string) (m : R Theme X) : R Theme X :=
  fun w => match m w with
           | (Ok x, w') => (Ok x, w')
           | (Err e, w') => (Err (Errorf prefix e), w')
           end.

Definition log_Warnf {Theme} (format : string) (err : error) : R Theme unit :=
  fun w => (Ok tt, mkWorld (log w ++ [Warnf format err]) (printed w)).

Definition color_Print {Theme} (d : colorDiff Theme) : R Theme unit :=
  fun w => (Ok tt, mkWorld (log w) (printed w ++ [d])).

Section Differ.

Context {Theme JSONPath Path Time : Type}.
Variable lib : Library JSONPath Path Time.

(** [Differ]: the options; the logger is the [log] of the world. *)
Record Differ : Type := mkDiffer { opt : Options Theme JSONPath Path }.

(** The JSON path step of [preprocess]: [generic] and [genericObj] as it
    leaves them. *)
Definition applyJSONPath (d : Differ) (generic : string) (genericObj : genericMap)
  : R Theme (string * genericMap) :=
  match compiledJSONPath (opt d) with
  | None => ret (generic, genericObj)
  | Some jsonPath =>
      match FindResults lib jsonPath genericObj with
      | Err err =>
          log_Warnf "Failed to apply JSON path: %w" err;;
          ret (generic, genericObj)
      | Ok ((r :: _) :: _) =>
          generic <- try "failed to encode JSON path result as JSON: "
                         (json_Marshal lib (AnyValue r));
          genericObj <- try "failed to re-decode JSON path result from JSON: "
                            (json_Unmarshal lib generic genericObj);
          ret (generic, genericObj)
      | Ok _ => ret (generic, genericObj)
      end
  end.

(** The loop over [parsedExcludePaths]. *)
Fixpoint removePaths (genericObj : genericMap) (excludePaths : list Path) : R Theme genericMap :=
  match excludePaths with
  | [] => ret genericObj
  | excludePath :: rest =>
      genericObj <- try ("failed to apply exclude expression " ++ formatPath lib excludePath ++ ": ")
                        (RemovePath lib genericObj excludePath);
      removePaths genericObj rest
  end.

(** The exclude step of [preprocess]. *)
Definition applyExcludes (d : Differ) (generic : string) (genericObj : genericMap)
  : R Theme string :=
  match parsedExcludePaths (opt d) with
  | [] => ret generic
  | excludePaths =>
      genericObj <- removePaths genericObj excludePaths;
      try "failed to encode exclude expression result as JSON: "
          (json_Marshal lib (AnyMap genericObj))
  end.

(** [obj] is a possibly nil pointer, given by the document it points to;
    the differ only reads it. *)
Definition preprocess (d : Differ) (obj : option Unstructured) : R Theme string :=
  match obj with
  | None => ret ""
  | Some o =>
      generic <- try "failed to encode object as JSON: "
                     (json_Marshal lib (AnyUnstructured o));
      genericObj <- try "failed to re-decode object from JSON: "
                        (json_Unmarshal lib generic None);
      selected <- applyJSONPath d generic genericObj;
      let '(generic, genericObj) := selected in
      generic <- applyExcludes d generic genericObj;
      final <- try "failed to encode object as YAML: " (JSONToYAML lib generic);
      ret final
  end.

Definition objectKey (obj : Unstructured) : string :=
  let key := GetName obj in
  let ns := GetNamespace obj in
  if decide (ns = "") then key else ns ++ "/" ++ key.

Definition diffTitle (obj : option Unstructured) (lastSeen : Time) : string :=
  match obj with
  | None => "(none)"
  | Some o =>
      let timestamp := Format_RFC3339 lib lastSeen in
      let kind := Kind lib o in
      kind ++ " " ++ objectKey o ++ " v" ++ timestamp ++ " (" ++ GetResourceVersion o
           ++ ") (gen. " ++ pretty (GetGeneration o) ++ ")"
  end.

(** [now] is what [time.Now()] returns during the call. *)
Definition PrintDiff (d : Differ) (oldObj newObj : option Unstructured)
    (lastSeen now : Time) : R Theme unit :=
  oldString <- wrap "failed to process previous object: " (preprocess d oldObj);
  newString <- wrap "failed to process current object: " (preprocess d newObj);
  let titleA := diffTitle oldObj lastSeen in
  let titleB := diffTitle newObj now in
  let colorTheme := UpdateColorTheme (opt d) in
  let colorTheme := if oldObj is None then CreateColorTheme (opt d) else colorTheme in
  let colorTheme := if newObj is None then DeleteColorTheme (opt d) else colorTheme in
  color_Print (mkColorDiff oldString newString titleA titleB
                           (ContextLines (opt d)) colorTheme).

Definition yamlEncode (obj : option Unstructured) : text :=
  match obj with
  | None => Lit ""
  | Some o => YamlMarshal (Some o)
  end.

End Differ.

End diff.

(** ** What the cache holds, seen as documents *)

(** The document stored under each key: the target of the stored pointer. *)
Definition stored (s : state) : gmap string Unstructured :=
  omap (fun l => heap s !! l) (resources s).

(** Every pointer of the cache points to an object. *)
Definition wf (s : state) : Prop :=
  forall k l, resources s !! k = Some l -> is_Some (heap s !! l).

(** The state a watcher starts in. *)
Definition boot : state := mkState ∅ ∅ [].

(** The document an event is handled as: the received one, its managed
    fields removed when the flag is set. *)
Definition current (hideManagedFields : bool) (u : Unstructured) : Unstructured :=
  if hideManagedFields then SetManagedFieldsNil u else u.

(** The heap only grows: an object that exists keeps its content. *)
Definition extends (s s' : state) : Prop :=
  forall l x, heap s !! l = Some x -> heap s' !! l = Some x.

(** The state once the object of an event is in place, its managed fields
    removed when asked for. *)
Definition received (hideManagedFields : bool) (u : Unstructured) (s : state) : state :=
  mkState (<[fresh (dom (heap s)) := current hideManagedFields u]> (heap s))
          (resources s) (stdout s).

(** The header line of a block: the action, the key and the rule. *)
Definition header_line (action key : string) : string :=
  "--- " ++ action ++ " --- " ++ key ++ " " ++ rule ++ nl.

Definition header (action key : string) : text :=
  Lit (header_line action key).

(** The unified diff [diffObjects] asks for, on documents. *)
Definition diffOf (previous : option Unstructured) (cur : Unstructured) : text :=
  GetUnifiedDiffString
    (mkUnifiedDiff (SplitLines (YamlMarshal previous))
                   (SplitLines (YamlMarshal (Some cur))) "Previous" "Current" 3).

(** The loop body on documents: the cache content after an event, and what
    the event prints. *)
Definition cache_after (hideManagedFields : bool) (event : Event)
    (c : gmap string Unstructured) : gmap string Unstructured :=
  match ev_Object event with
  | OtherObject => c
  | UnstructuredObject u =>
      let cur := current hideManagedFields u in
      match ev_Type event with
      | Added | Modified => <[cacheKey cur := cur]> c
      | Deleted => delete (cacheKey cur) c
      | _ => c
      end
  end.

Definition output_of (hideManagedFields : bool) (event : Event)
    (c : gmap string Unstructured) : list text :=
  match ev_Object event with
  | OtherObject => []
  | UnstructuredObject u =>
      let cur := current hideManagedFields u in
      match ev_Type event with
      | Added =>
          [header "CREATE" (diff.objectKey cur);
           TrimSpace (YamlMarshal (Some cur)); Lit (nl ++ nl)]
      | Modified =>
          [header "UPDATE" (diff.objectKey cur);
           TrimSpace (diffOf (c !! cacheKey cur) cur); Lit (nl ++ nl)]
      | Deleted => [header "DELETE" (diff.objectKey cur)]
      | _ => []
      end
  end.

(** Whether an event is about the identity [key]. *)
Definition about (key : string) (event : Event) : Prop :=
  match ev_Object event with
  | UnstructuredObject u => cacheKey u = key
  | OtherObject => False
  end.

(** The previous side of the diff a block shows, when the block is a diff. *)
Definition previous_side (block : list text) : option (option Unstructured) :=
  match block with
  | [_; TrimSpace (GetUnifiedDiffString d); _] =>
      match A d with
      | SplitLines (YamlMarshal previous) => Some previous
      | _ => None
      end
  | _ => None
  end.

(** The context lines of the diff a block shows, when the block is a diff. *)
Definition context_of (block : list text) : option Z :=
  match block with
  | [_; TrimSpace (GetUnifiedDiffString d); _] => Some (Context d)
  | _ => None
  end.

(** ** A client of the cache *)

(** What a caller of the cache can do with the objects it holds: make a new
    one, hand the [i]-th to [Get], [Set] or [Delete], or overwrite it in
    place.  A pointer [Get] returns joins the objects held. *)
Inductive clientOp : Type :=
| NewObject (v : Unstructured)
| CallGet (i : nat)
| CallSet (i : nat)
| CallDelete (i : nat)
| Mutate (i : nat) (w : Unstructured).

Definition client_step (held : list loc) (op : clientOp) : M (list loc) :=
  match op with
  | NewObject v =>
      l <- alloc v;
      ret (held ++ [l])%list
  | CallGet i =>
      match held !! i with
      | None => ret held
      | Some obj =>
          r <- rc_Get obj;
          ret (match r with Some p => (held ++ [p])%list | None => held end)
      end
  | CallSet i =>
      match held !! i with
      | None => ret held
      | Some obj => rc_Set obj;; ret held
      end
  | CallDelete i =>
      match held !! i with
      | None => ret held
      | Some obj => rc_Delete obj;; ret held
      end
  | Mutate i w =>
      match held !! i with
      | None => ret held
      | Some obj => store obj w;; ret held
      end
  end.

Fixpoint client_loop (held : list loc) (ops : list clientOp) : M (list loc) :=
  match ops with
  | [] => ret held
  | op :: rest =>
      held' <- client_step held op;
      client_loop held' rest
  end.

Definition client (ops : list clientOp) : M (list loc) :=
  newResourceCache;;
  client_loop [] ops.

(** ** Sample documents *)

Definition pod (name label : string) (extra : gmap string value) : Unstructured :=
  mkUnstructured
    {[ "kind" := VString "Pod";
       "metadata" :=
         VMap (<["name" := VString name]>
               (<["namespace" := VString "default"]>
                (<["labels" := VMap {[ "app" := VString label ]}]> extra))) ]}.

Definition nginx : Unstructured := pod "nginx" "nginx" ∅.

Definition nginx_v2 : Unstructured := pod "nginx" "nginx-v2" ∅.

Definition nginx_managed : Unstructured :=
  pod "nginx" "nginx" {[ "managedFields" := VSlice [VMap {[ "manager" := VString "kubectl" ]}] ]}.

(** The cache content, as documents, after a run of events from the empty
    cache. *)
Definition cache_of (hideManagedFields : bool) (events : list Event)
    : gmap string Unstructured :=
  foldl (fun c event => cache_after hideManagedFields event c) ∅ events.

(** Whether [s] ends with [suffix]. *)
Definition ends_with (suffix s : string) : bool :=
  String.eqb (substring (String.length s - String.length suffix)
                        (String.length suffix) s) suffix
  && (String.length suffix <=? String.length s)%nat.

(** ** The output as a string *)

(** The printed pieces as the string they stand for, given what the library
    calls return. *)
Record TextLibrary : Type := mkTextLibrary {
  lib_yaml_Marshal : option Unstructured -> string;
  lib_TrimSpace : string -> string;
  lib_SplitLines : string -> list string;
  lib_GetUnifiedDiffString : UnifiedDiff (list string) -> string
}.

Fixpoint render (L : TextLibrary) (t : text) : string :=
  match t with
  | Lit s => s
  | YamlMarshal o => lib_yaml_Marshal L o
  | TrimSpace t' => lib_TrimSpace L (render L t')
  | GetUnifiedDiffString d =>
      lib_GetUnifiedDiffString L
        (mkUnifiedDiff (render_lines L (A d)) (render_lines L (B d))
                       (FromFile d) (ToFile d) (Context d))
  end
with render_lines (L : TextLibrary) (l : lines) : list string :=
  match l with
  | SplitLines t => lib_SplitLines L (render L t)
  end.

Definition render_all (L : TextLibrary) (pieces : list text) : string :=
  String.concat "" (map (render L) pieces).

(** ** Sample events *)

Definition added (u : Unstructured) : Event := mkEvent Added (UnstructuredObject u).
Definition modified (u : Unstructured) : Event := mkEvent Modified (UnstructuredObject u).
Definition deleted (u : Unstructured) : Event := mkEvent Deleted (UnstructuredObject u).

(** What a client run keeps true: the cache points to objects, the client
    holds objects, and the cache points to none of the objects the client
    holds. *)
Definition client_inv (s : state) (held : list loc) : Prop :=
  wf s /\
  (forall p, p ∈ held -> is_Some (heap s !! p)) /\
  (forall k l, resources s !! k = Some l -> l ∉ held).

(** ** Sample differ *)

(** A library for examples: JSON path evaluation fails, and removing the path
    named bad fails. *)
Definition sample_library : diff.Library string string unit :=
  diff.mkLibrary string string unit
    (fun _ => diff.Ok "{}")
    (fun _ _ => diff.Ok (Some ∅))
    (fun _ _ => diff.Err "no such field")
    (fun genericObj path =>
       if decide (path = "bad") then diff.Err "invalid path" else diff.Ok genericObj)
    (fun generic => diff.Ok generic)
    (fun path => path)
    (fun _ => "2026-01-01T00:00:00Z")
    GetKind.

Inductive sample_theme : Type := green | yellow | red.

Definition sample_options (jsonPath : option string) (excludePaths : list string)
    : diff.Options sample_theme string string :=
  diff.mkOptions yellow green red 10 jsonPath excludePaths.

Definition quiet : diff.world sample_theme := diff.mkWorld [] [].

(** The options with no JSON path. *)
Definition without_JSONPath {Theme JSONPath Path : Type}
    (o : diff.Options Theme JSONPath Path) : diff.Options Theme JSONPath Path :=
  diff.mkOptions (diff.UpdateColorTheme o) (diff.CreateColorTheme o)
                 (diff.DeleteColorTheme o) (diff.ContextLines o) None
                 (diff.parsedExcludePaths o).

(** A call of the differ whose result does not depend on what has been
    written so far, and that gives nothing to [color.Print]. *)
Definition stable {Theme X : Type} (m : diff.R Theme X) : Prop :=
  forall w w0 : diff.world Theme,
    fst (m w) = fst (m w0) /\ diff.printed (snd (m w)) = diff.printed w.

(** A call of the differ that writes nothing and whose result does not
    depend on what has been written so far. *)
Definition silent {Theme X : Type} (m : diff.R Theme X) : Prop :=
  forall w w0 : diff.world Theme, m w = (fst (m w0), w).

(** ** A whole run, on documents *)

(** What a run of events prints from the cache content [c] on: the block of
    each event in order, each read against the cache the events before it
    left. *)
Fixpoint blocks (hideManagedFields : bool) (events : list Event)
    (c : gmap string Unstructured) : list text :=
  match events with
  | [] => []
  | event :: rest =>
      (output_of hideManagedFields event c
       ++ blocks hideManagedFields rest (cache_after hideManagedFields event c))%list
  end.

(** The event with the managed fields of its document removed. *)
Definition strip_event (event : Event) : Event :=
  mkEvent (ev_Type event)
          (match ev_Object event with
           | UnstructuredObject u => UnstructuredObject (SetManagedFieldsNil u)
           | OtherObject => OtherObject
           end).

(** The document of the event, if it has one, carries no managed fields. *)
Definition unmanaged (event : Event) : Prop :=
  match ev_Object event with
  | UnstructuredObject u => hasManagedFields u = false
  | OtherObject => True
  end.

(** Whether an event writes its document into the cache. *)
Definition writes (event : Event) : Prop :=
  ev_Type event = Added \/ ev_Type event = Modified.

(** No slash in the string. *)
Fixpoint no_slash (s : string) : bool :=
  match s with
  | EmptyString => true
  | String a rest => negb (Ascii.eqb a "/") && no_slash rest
  end.

(** Whether the string has a space. *)
Fixpoint has_space (s : string) : bool :=
  match s with
  | EmptyString => false
  | String a rest => Ascii.eqb a " " || has_space rest
  end.

(** ** More sample data *)

Definition redis : Unstructured := pod "redis" "redis" ∅.

(** A library for examples whose JSON path evaluation returns [found], all
    else as in [sample_library] but for the encoder, which tells what it
    encodes. *)
Definition finding_library (found : diff.result (list (list value)))
    : diff.Library string string unit :=
  diff.mkLibrary string string unit
    (fun x => match x with
              | diff.AnyUnstructured _ => diff.Ok "{object}"
              | diff.AnyValue _ => diff.Ok "{selected}"
              | diff.AnyMap _ => diff.Ok "{map}"
              end)
    (fun _ _ => diff.Ok (Some ∅))
    (fun _ _ => found)
    (fun genericObj path =>
       if decide (path = "bad") then diff.Err "invalid path" else diff.Ok genericObj)
    (fun generic => diff.Ok generic)
    (fun path => path)
    (fun _ => "2026-01-01T00:00:00Z")
    GetKind.

(** A library for examples that cannot encode anything. *)
Definition broken_library : diff.Library string string unit :=
  diff.mkLibrary string string unit
    (fun _ => diff.Err "unsupported value")
    (fun _ _ => diff.Ok (Some ∅))
    (fun _ _ => diff.Ok [])
    (fun genericObj _ => diff.Ok genericObj)
    (fun generic => diff.Ok generic)
    (fun path => path)
    (fun _ => "2026-01-01T00:00:00Z")
    GetKind.

(** A state with one object, [nginx], and an empty cache; and one where the
    cache holds a copy of it. *)
Definition one_object : state :=
  mkState {[ 1%positive := nginx ]} ∅ [].

Definition one_cached : state :=
  mkState {[ 1%positive := nginx; 2%positive := nginx ]}
          {[ "default/nginx" := 2%positive ]} [].

(** ** Tactics *)

(** Run the calls of the heap monad, rewriting with [H] where a pointer is
    read. *)
Ltac unfold_calls :=
  cbv beta iota zeta delta
    [rc_Set rc_Get rc_Delete rc_objectKey DeepCopy newResourceCache yaml_Marshal
     diffObjects bind load ret getResources setResources alloc store Printf].

Ltac run_with H := unfold_calls; repeat (rewrite H; cbv beta iota zeta).

(** * Proofs *)

(** ** Documents *)

Lemma getNestedString_metadata_remove (obj : gmap string value) (field : string) :
  field <> "managedFields" ->
  getNestedString (RemoveNestedField obj ["metadata"; "managedFields"]) ["metadata"; field]
  = getNestedString obj ["metadata"; field].
Proof.
  intros Hne. unfold getNestedString. simpl.
  destruct (obj !! "metadata") as [[| | | | |x]|] eqn:Hm; rewrite ?Hm; try reflexivity.
  rewrite lookup_insert_eq, lookup_delete_ne by congruence. reflexivity.
Qed.

Lemma cacheKey_SetManagedFieldsNil (u : Unstructured) :
  cacheKey (SetManagedFieldsNil u) = cacheKey u.
Proof.
  unfold cacheKey, GetNamespace, GetName, SetManagedFieldsNil. cbn [Object].
  rewrite !getNestedString_metadata_remove by discriminate. reflexivity.
Qed.

Lemma objectKey_SetManagedFieldsNil (u : Unstructured) :
  diff.objectKey (SetManagedFieldsNil u) = diff.objectKey u.
Proof.
  unfold diff.objectKey, GetNamespace, GetName, SetManagedFieldsNil. cbn [Object].
  rewrite !getNestedString_metadata_remove by discriminate. reflexivity.
Qed.

Lemma cacheKey_current (hide : bool) (u : Unstructured) :
  cacheKey (current hide u) = cacheKey u.
Proof. destruct hide; [apply cacheKey_SetManagedFieldsNil | reflexivity]. Qed.

Lemma hasManagedFields_SetManagedFieldsNil (u : Unstructured) :
  hasManagedFields (SetManagedFieldsNil u) = false.
Proof.
  unfold hasManagedFields, SetManagedFieldsNil. cbn [Object]. simpl.
  destruct (Object u !! "metadata") as [[| | | | |x]|] eqn:Hm; rewrite ?Hm; try reflexivity.
  rewrite lookup_insert_eq, lookup_delete_eq. reflexivity.
Qed.

(** ** The cache methods, run *)

Lemma rc_Set_run (s : state) (obj : loc) (v : Unstructured) :
  heap s !! obj = Some v ->
  rc_Set obj s
  = Some (tt, mkState (<[fresh (dom (heap s)) := v]> (heap s))
                      (<[cacheKey v := fresh (dom (heap s))]> (resources s))
                      (stdout s)).
Proof.
  intros Hobj. run_with Hobj. reflexivity.
Qed.

Lemma rc_Get_run_absent (s : state) (obj : loc) (v : Unstructured) :
  heap s !! obj = Some v ->
  resources s !! cacheKey v = None ->
  rc_Get obj s = Some (None, s).
Proof.
  intros Hobj Hk. run_with Hobj. cbn [resources]. rewrite Hk. reflexivity.
Qed.

Lemma rc_Get_run_present (s : state) (obj existing : loc) (v e : Unstructured) :
  heap s !! obj = Some v ->
  resources s !! cacheKey v = Some existing ->
  heap s !! existing = Some e ->
  rc_Get obj s
  = Some (Some (fresh (dom (heap s))),
          mkState (<[fresh (dom (heap s)) := e]> (heap s)) (resources s) (stdout s)).
Proof.
  intros Hobj Hk He. run_with Hobj. cbn [resources]. rewrite Hk.
  run_with He. reflexivity.
Qed.

Lemma rc_Delete_run (s : state) (obj : loc) (v : Unstructured) :
  heap s !! obj = Some v ->
  rc_Delete obj s
  = Some (tt, mkState (heap s) (delete (cacheKey v) (resources s)) (stdout s)).
Proof.
  intros Hobj. run_with Hobj. reflexivity.
Qed.

(** ** The stored documents *)

Lemma fresh_heap (h : gmap loc Unstructured) : h !! fresh (dom h) = None.
Proof. apply not_elem_of_dom, is_fresh. Qed.

Lemma stored_lookup (s : state) (k : string) :
  stored s !! k = resources s !! k ≫= (fun l => heap s !! l).
Proof. unfold stored. apply lookup_omap. Qed.

Lemma stored_None (s : state) (k : string) :
  wf s -> stored s !! k = None <-> resources s !! k = None.
Proof.
  intros Hwf. rewrite stored_lookup.
  destruct (resources s !! k) as [l|] eqn:Hk; simpl; [|tauto].
  destruct (Hwf _ _ Hk) as [v Hv]. rewrite Hv. split; discriminate.
Qed.

(** Writing to objects the cache does not point to changes no stored
    document. *)
Lemma stored_frame (s : state) (h' : gmap loc Unstructured) (out : list text) :
  (forall k l, resources s !! k = Some l -> h' !! l = heap s !! l) ->
  stored (mkState h' (resources s) out) = stored s.
Proof.
  intros Hsame. apply map_eq. intros k. rewrite !stored_lookup. cbn [resources heap].
  destruct (resources s !! k) as [l|] eqn:Hk; simpl; [|reflexivity].
  apply (Hsame _ _ Hk).
Qed.

Lemma stored_insert (s : state) (l : loc) (v : Unstructured) (k : string) (out : list text) :
  wf s -> heap s !! l = None ->
  stored (mkState (<[l := v]> (heap s)) (<[k := l]> (resources s)) out)
  = <[k := v]> (stored s).
Proof.
  intros Hwf Hl. apply map_eq. intros k'. rewrite stored_lookup. cbn [resources heap].
  destruct (decide (k = k')) as [->|Hne].
  - rewrite !lookup_insert_eq. simpl. apply lookup_insert_eq.
  - rewrite !lookup_insert_ne by done. rewrite stored_lookup.
    destruct (resources s !! k') as [l'|] eqn:Hk'; simpl; [|reflexivity].
    apply lookup_insert_ne. intros ->. destruct (Hwf _ _ Hk') as [x Hx]. congruence.
Qed.

Lemma stored_delete (s : state) (k : string) (out : list text) :
  stored (mkState (heap s) (delete k (resources s)) out) = delete k (stored s).
Proof.
  apply map_eq. intros k'. rewrite stored_lookup. cbn [resources heap].
  destruct (decide (k = k')) as [->|Hne].
  - rewrite !lookup_delete_eq. reflexivity.
  - rewrite !lookup_delete_ne by done. rewrite stored_lookup. reflexivity.
Qed.

Lemma wf_alloc (s : state) (v : Unstructured) (out : list text) :
  wf s -> wf (mkState (<[fresh (dom (heap s)) := v]> (heap s)) (resources s) out).
Proof.
  intros Hwf k l Hk. cbn [resources heap] in *.
  destruct (Hwf _ _ Hk) as [x Hx]. exists x.
  rewrite lookup_insert_ne; [done|]. intros <-. rewrite fresh_heap in Hx. discriminate.
Qed.

Lemma bind_Some {X Y} (m : M X) (k : X -> M Y) (s s' : state) (x : X) :
  m s = Some (x, s') -> bind m k s = k x s'.
Proof. intros H. unfold bind. rewrite H. reflexivity. Qed.

Lemma rc_Get_spec (s : state) (obj : loc) (v : Unstructured) :
  wf s -> heap s !! obj = Some v ->
  exists r s',
    rc_Get obj s = Some (r, s') /\ wf s' /\ resources s' = resources s /\
    stdout s' = stdout s /\ stored s' = stored s /\ extends s s' /\
    match r with
    | None => stored s !! cacheKey v = None
    | Some p =>
        heap s !! p = None /\
        exists e, heap s' !! p = Some e /\ stored s !! cacheKey v = Some e
    end.
Proof.
  intros Hwf Hobj.
  destruct (resources s !! cacheKey v) as [existing|] eqn:Hk.
  - destruct (Hwf _ _ Hk) as [e He].
    eexists _, _. split; [apply (rc_Get_run_present _ _ _ _ _ Hobj Hk He)|].
    split; [by apply wf_alloc|]. do 2 (split; [reflexivity|]).
    split.
    { apply stored_frame. intros k l Hl. apply lookup_insert_ne.
      intros <-. destruct (Hwf _ _ Hl) as [x Hx]. rewrite fresh_heap in Hx. discriminate. }
    split.
    { intros l x Hl. cbn [heap]. rewrite lookup_insert_ne; [done|].
      intros <-. rewrite fresh_heap in Hl. discriminate. }
    split; [apply fresh_heap|]. exists e. cbn [heap]. rewrite lookup_insert_eq.
    split; [reflexivity|]. rewrite stored_lookup, Hk. exact He.
  - exists None, s. split; [apply (rc_Get_run_absent _ _ _ Hobj Hk)|].
    split; [done|]. do 3 (split; [reflexivity|]).
    split; [intros l x Hl; exact Hl|]. by apply stored_None.
Qed.

Lemma rc_Set_spec (s : state) (obj : loc) (v : Unstructured) :
  wf s -> heap s !! obj = Some v ->
  exists s',
    rc_Set obj s = Some (tt, s') /\ wf s' /\ stdout s' = stdout s /\
    stored s' = <[cacheKey v := v]> (stored s) /\ extends s s' /\
    exists c, heap s !! c = None /\ heap s' = <[c := v]> (heap s) /\
              resources s' = <[cacheKey v := c]> (resources s).
Proof.
  intros Hwf Hobj. eexists. split; [apply (rc_Set_run _ _ _ Hobj)|].
  split.
  { intros k l. cbn [resources heap]. destruct (decide (cacheKey v = k)) as [->|Hne].
    - rewrite lookup_insert_eq. intros [= <-]. rewrite lookup_insert_eq. by eexists.
    - rewrite lookup_insert_ne by done. intros Hl. destruct (Hwf _ _ Hl) as [x Hx].
      exists x. rewrite lookup_insert_ne; [done|].
      intros <-. rewrite fresh_heap in Hx. discriminate. }
  split; [reflexivity|].
  split; [apply stored_insert; [done | apply fresh_heap]|].
  split.
  { intros l x Hl. cbn [heap]. rewrite lookup_insert_ne; [done|].
    intros <-. rewrite fresh_heap in Hl. discriminate. }
  exists (fresh (dom (heap s))). split; [apply fresh_heap|]. split; reflexivity.
Qed.

Lemma rc_Delete_spec (s : state) (obj : loc) (v : Unstructured) :
  wf s -> heap s !! obj = Some v ->
  exists s',
    rc_Delete obj s = Some (tt, s') /\ wf s' /\ stdout s' = stdout s /\
    stored s' = delete (cacheKey v) (stored s) /\ heap s' = heap s /\
    resources s' = delete (cacheKey v) (resources s).
Proof.
  intros Hwf Hobj. eexists. split; [apply (rc_Delete_run _ _ _ Hobj)|].
  split.
  { intros k l. cbn [resources heap]. intros Hl.
    apply lookup_delete_Some in Hl as [_ Hl]. by apply (Hwf _ _ Hl). }
  split; [reflexivity|]. split; [apply stored_delete|]. split; reflexivity.
Qed.

(** ** The loop body *)

Lemma watcher_body_received (hide : bool) (ty : EventType) (u : Unstructured) (s : state) :
  watcher_body hide (mkEvent ty (UnstructuredObject u)) s
  = let metaObject := fresh (dom (heap s)) in
    let cur := current hide u in
    let key := diff.objectKey cur in
    (match ty with
     | Added =>
         encoded <- yaml_Marshal (Some metaObject);
         Printf [Lit ("--- CREATE --- " ++ key ++ " " ++ rule ++ nl)];;
         Printf [TrimSpace encoded; Lit (nl ++ nl)];;
         rc_Set metaObject
     | Modified =>
         previousObject <- rc_Get metaObject;
         rc_Set metaObject;;
         Printf [Lit ("--- UPDATE --- " ++ key ++ " " ++ rule ++ nl)];;
         d <- diffObjects previousObject (Some metaObject);
         Printf [TrimSpace d; Lit (nl ++ nl)]
     | Deleted =>
         rc_Delete metaObject;;
         Printf [Lit ("--- DELETE --- " ++ key ++ " " ++ rule ++ nl)]
     | _ => ret tt
     end) (received hide u s).
Proof.
  unfold watcher_body, received. cbn [ev_Object ev_Type].
  unfold bind at 1. unfold alloc at 1. cbv beta iota zeta.
  destruct hide; cbn [current].
  - unfold bind at 1. unfold bind at 1. unfold load at 1. cbn [heap].
    rewrite lookup_insert_eq. unfold store. cbn [heap resources stdout].
    rewrite lookup_insert_eq, insert_insert_eq.
    unfold bind at 1. unfold load at 1. cbn [heap]. rewrite lookup_insert_eq.
    reflexivity.
  - unfold bind at 1. unfold ret at 1.
    unfold bind at 1. unfold load at 1. cbn [heap]. rewrite lookup_insert_eq.
    reflexivity.
Qed.

Lemma received_facts (hide : bool) (u : Unstructured) (s : state) :
  wf s ->
  wf (received hide u s) /\ stored (received hide u s) = stored s /\
  heap (received hide u s) !! fresh (dom (heap s)) = Some (current hide u) /\
  stdout (received hide u s) = stdout s.
Proof.
  intros Hwf. split; [by apply wf_alloc|]. split.
  { apply stored_frame. intros k l Hl. apply lookup_insert_ne.
    intros <-. destruct (Hwf _ _ Hl) as [x Hx]. rewrite fresh_heap in Hx. discriminate. }
  split; [apply lookup_insert_eq | reflexivity].
Qed.

Lemma Printf_run (pieces : list text) (s : state) :
  Printf pieces s = Some (tt, mkState (heap s) (resources s) (stdout s ++ pieces)).
Proof. reflexivity. Qed.

(** The loop body refines its reading on documents: it never panics, and
    leaves the cache and the output that [cache_after] and [output_of] give. *)
Lemma watcher_body_spec (hide : bool) (event : Event) (s : state) :
  wf s ->
  exists s',
    watcher_body hide event s = Some (tt, s') /\ wf s' /\
    stored s' = cache_after hide event (stored s) /\
    stdout s' = (stdout s ++ output_of hide event (stored s))%list.
Proof.
  intros Hwf. destruct event as [ty [u|]].
  2:{ exists s. unfold cache_after, output_of. cbn [ev_Object].
      rewrite app_nil_r. by repeat split. }
  rewrite watcher_body_received. cbv zeta.
  destruct (received_facts hide u s Hwf) as (Hwf2 & Hst2 & Hm & Hout2).
  set (s2 := received hide u s) in *.
  set (metaObject := fresh (dom (heap s))) in *.
  set (cur := current hide u) in *.
  unfold cache_after, output_of. cbn [ev_Object ev_Type]. fold cur.
  destruct ty.
  - (* Added *)
    unfold yaml_Marshal. unfold bind at 1. unfold bind at 1. unfold load at 1.
    rewrite Hm. unfold ret at 1. cbv beta iota.
    unfold bind at 1. rewrite Printf_run. cbv beta iota.
    unfold bind at 1. rewrite Printf_run. cbv beta iota. cbn [heap resources stdout].
    destruct (rc_Set_spec (mkState (heap s2) (resources s2)
                ((stdout s2 ++ [Lit ("--- CREATE --- " ++ diff.objectKey cur ++ " " ++ rule ++ nl)])
                 ++ [TrimSpace (YamlMarshal (Some cur)); Lit (nl ++ nl)])) metaObject cur)
      as (s' & Hrun & Hwf' & Hout' & Hst' & _); [exact Hwf2 | exact Hm |].
    exists s'. split; [exact Hrun|]. split; [exact Hwf'|].
    split; [rewrite Hst'; unfold stored at 1; cbn [heap resources]; fold (stored s2);
            by rewrite Hst2|].
    rewrite Hout'. cbn [stdout]. rewrite Hout2, <- app_assoc. reflexivity.
  - (* Modified *)
    destruct (rc_Get_spec s2 metaObject cur Hwf2 Hm)
      as (r & s3 & Hget & Hwf3 & Hres3 & Hout3 & Hst3 & Hext3 & Hr).
    rewrite (bind_Some _ _ _ _ _ Hget).
    destruct (rc_Set_spec s3 metaObject cur Hwf3 (Hext3 _ _ Hm))
      as (s4 & Hset & Hwf4 & Hout4 & Hst4 & Hext4 & c & Hc & Hheap4 & _).
    rewrite (bind_Some _ _ _ _ _ Hset).
    unfold bind at 1. rewrite Printf_run. cbv beta iota.
    assert (Hd : diffObjects r (Some metaObject)
                   (mkState (heap s4) (resources s4)
                      (stdout s4 ++ [Lit ("--- UPDATE --- " ++ diff.objectKey cur ++ " " ++ rule ++ nl)]))
                 = Some (diffOf (stored s !! cacheKey cur) cur,
                         mkState (heap s4) (resources s4)
                           (stdout s4 ++ [Lit ("--- UPDATE --- " ++ diff.objectKey cur ++ " " ++ rule ++ nl)]))).
    { unfold diffObjects, yaml_Marshal, diffOf.
      destruct r as [p|].
      - destruct Hr as (Hp & e & He & Hprev).
        unfold bind at 1. unfold bind at 1. unfold load at 1. cbn [heap].
        rewrite (Hext4 _ _ He). unfold ret at 1. cbv beta iota.
        unfold bind at 1. unfold bind at 1. unfold load at 1. cbn [heap].
        rewrite (Hext4 _ _ (Hext3 _ _ Hm)). unfold ret. cbv beta iota.
        rewrite <- Hst2, Hprev. reflexivity.
      - unfold bind at 1. unfold ret at 1. cbv beta iota.
        unfold bind at 1. unfold bind at 1. unfold load at 1. cbn [heap].
        rewrite (Hext4 _ _ (Hext3 _ _ Hm)). unfold ret. cbv beta iota.
        rewrite <- Hst2, Hr. reflexivity. }
    rewrite (bind_Some _ _ _ _ _ Hd). rewrite Printf_run. cbn [heap resources stdout].
    eexists. split; [reflexivity|]. split; [exact Hwf4|].
    split; [unfold stored at 1; cbn [heap resources]; fold (stored s4);
            by rewrite Hst4, Hst3, Hst2|].
    cbn [stdout]. rewrite Hout4, Hout3, Hout2, <- app_assoc. reflexivity.
  - (* Deleted *)
    destruct (rc_Delete_spec s2 metaObject cur Hwf2 Hm)
      as (s3 & Hdel & Hwf3 & Hout3 & Hst3 & _).
    rewrite (bind_Some _ _ _ _ _ Hdel). rewrite Printf_run.
    eexists. split; [reflexivity|]. split; [exact Hwf3|].
    split; [unfold stored at 1; cbn [heap resources]; fold (stored s3);
            by rewrite Hst3, Hst2|].
    cbn [stdout]. rewrite Hout3, Hout2. reflexivity.
  - (* Bookmark *)
    exists s2. split; [reflexivity|]. split; [exact Hwf2|]. split; [exact Hst2|].
    rewrite Hout2, app_nil_r. reflexivity.
  - (* Error *)
    exists s2. split; [reflexivity|]. split; [exact Hwf2|]. split; [exact Hst2|].
    rewrite Hout2, app_nil_r. reflexivity.
Qed.

(** ** The loop *)

Lemma watcher_loop_spec (hide : bool) (events : list Event) (s : state) :
  wf s ->
  exists s',
    watcher_loop hide events s = Some (tt, s') /\ wf s' /\
    stored s' = foldl (fun c event => cache_after hide event c) (stored s) events.
Proof.
  revert s. induction events as [|event rest IH]; intros s Hwf.
  - exists s. by repeat split.
  - destruct (watcher_body_spec hide event s Hwf) as (s1 & Hrun & Hwf1 & Hst1 & _).
    destruct (IH s1 Hwf1) as (s' & Hrest & Hwf' & Hst').
    exists s'. cbn [watcher_loop]. rewrite (bind_Some _ _ _ _ _ Hrun).
    split; [exact Hrest|]. split; [exact Hwf'|]. rewrite Hst', Hst1. reflexivity.
Qed.

Lemma watcher_loop_snoc (hide : bool) (events : list Event) (event : Event) (s s1 : state) :
  watcher_loop hide events s = Some (tt, s1) ->
  watcher_loop hide (events ++ [event]) s = watcher_body hide event s1.
Proof.
  revert s. induction events as [|e rest IH]; intros s Hrun; cbn [watcher_loop app] in *.
  - injection Hrun as <-. unfold bind, ret.
    destruct (watcher_body hide event s) as [[[] s']|]; reflexivity.
  - unfold bind in *. destruct (watcher_body hide e s) as [[[] s']|]; [|discriminate].
    by apply IH.
Qed.

Lemma wf_newResourceCache (s0 : state) :
  wf (mkState (heap s0) ∅ (stdout s0)) /\ stored (mkState (heap s0) ∅ (stdout s0)) = ∅.
Proof.
  split.
  - intros k l Hl. cbn [resources] in Hl. rewrite lookup_empty in Hl. discriminate.
  - unfold stored. cbn [resources]. apply omap_empty.
Qed.

(** A watcher never panics; what it has stored is what the events say. *)
Lemma watcher_spec (events : list Event) (hide : bool) (s0 : state) :
  exists s,
    watcher events hide s0 = Some (tt, s) /\ wf s /\ stored s = cache_of hide events.
Proof.
  destruct (wf_newResourceCache s0) as [Hwf Hst].
  destruct (watcher_loop_spec hide events _ Hwf) as (s & Hrun & Hwfs & Hsts).
  exists s. split; [exact Hrun|]. split; [exact Hwfs|].
  rewrite Hsts, Hst. reflexivity.
Qed.

(** One more event: the loop body, run in the state the earlier events
    left. *)
Lemma watcher_next (events : list Event) (event : Event) (hide : bool) (s0 : state) :
  exists s s',
    watcher events hide s0 = Some (tt, s) /\
    watcher (events ++ [event]) hide s0 = Some (tt, s') /\
    stored s = cache_of hide events /\
    stored s' = cache_after hide event (stored s) /\
    stdout s' = (stdout s ++ output_of hide event (stored s))%list.
Proof.
  destruct (watcher_spec events hide s0) as (s & Hrun & Hwf & Hst).
  destruct (watcher_body_spec hide event s Hwf) as (s' & Hbody & _ & Hst' & Hout').
  exists s, s'. split; [exact Hrun|]. split; [|by repeat split].
  unfold watcher in *. unfold bind at 1. unfold bind at 1 in Hrun.
  unfold newResourceCache, setResources in *.
  rewrite (watcher_loop_snoc _ _ _ _ _ Hrun). exact Hbody.
Qed.

(** An identity no event was about is not in the cache. *)
Lemma cache_never_seen (hide : bool) (events : list Event) (key : string) :
  Forall (fun event => ~ about key event) events ->
  cache_of hide events !! key = None.
Proof.
  unfold cache_of. generalize (∅ : gmap string Unstructured) (lookup_empty (A:=Unstructured) key).
  induction events as [|event rest IH]; intros c Hc Hall; [exact Hc|].
  apply Forall_cons in Hall as [Hev Hall]. cbn [foldl]. apply IH; [|exact Hall].
  unfold cache_after, about in *. destruct (ev_Object event) as [u|]; [|exact Hc].
  destruct (ev_Type event); try exact Hc.
  - rewrite lookup_insert_ne; [exact Hc | by rewrite cacheKey_current].
  - rewrite lookup_insert_ne; [exact Hc | by rewrite cacheKey_current].
  - rewrite lookup_delete_ne; [exact Hc | by rewrite cacheKey_current].
Qed.

(** With managed fields hidden, no document the cache holds has any. *)
Lemma cache_of_no_managed (events : list Event) (k : string) (v : Unstructured) :
  cache_of true events !! k = Some v -> hasManagedFields v = false.
Proof.
  unfold cache_of.
  assert (Hempty : forall k v, (∅ : gmap string Unstructured) !! k = Some v ->
                               hasManagedFields v = false).
  { intros k' v' H. rewrite lookup_empty in H. discriminate. }
  revert k v. generalize dependent (∅ : gmap string Unstructured).
  induction events as [|event rest IH]; intros c Hc k v; [apply Hc|].
  cbn [foldl]. apply IH. intros k' v'.
  unfold cache_after. destruct (ev_Object event) as [u|]; [|apply Hc].
  cbn [current]. destruct (ev_Type event); try apply Hc.
  - destruct (decide (cacheKey (SetManagedFieldsNil u) = k')) as [->|Hne].
    + rewrite lookup_insert_eq. intros [= <-]. apply hasManagedFields_SetManagedFieldsNil.
    + rewrite lookup_insert_ne by done. apply Hc.
  - destruct (decide (cacheKey (SetManagedFieldsNil u) = k')) as [->|Hne].
    + rewrite lookup_insert_eq. intros [= <-]. apply hasManagedFields_SetManagedFieldsNil.
    + rewrite lookup_insert_ne by done. apply Hc.
  - intros H. apply lookup_delete_Some in H as [_ H]. by apply (Hc k').
Qed.

(** * The claims about the watch loop *)

(** C1. An UPDATE event for a document [u], after any events: the watcher
    does not panic; the block it prints is the UPDATE header and the diff
    whose previous side is what the cache holds under the identity of the
    object at that moment, absent when it holds nothing there, as is the case
    when no earlier event was about that identity; and the cache then holds
    the current document under that identity, whatever it held before. *)
Theorem update_previous_is_cache_lookup
    (events : list Event) (hideManagedFields : bool) (u : Unstructured) (s0 : state) :
  exists s s',
    watcher events hideManagedFields s0 = Some (tt, s) /\
    watcher (events ++ [mkEvent Modified (UnstructuredObject u)]) hideManagedFields s0
    = Some (tt, s') /\
    stdout s'
    = (stdout s
       ++ [header "UPDATE" (diff.objectKey (current hideManagedFields u));
           TrimSpace (diffOf (stored s !! cacheKey (current hideManagedFields u))
                             (current hideManagedFields u));
           Lit (nl ++ nl)])%list /\
    stored s'
    = <[cacheKey (current hideManagedFields u) := current hideManagedFields u]> (stored s) /\
    (stored s !! cacheKey (current hideManagedFields u) = None ->
     previous_side (drop (length (stdout s)) (stdout s')) = Some None) /\
    (Forall (fun event => ~ about (cacheKey u) event) events ->
     stored s !! cacheKey (current hideManagedFields u) = None).
Proof.
  destruct (watcher_next events (mkEvent Modified (UnstructuredObject u)) hideManagedFields s0)
    as (s & s' & Hrun & Hrun' & Hst & Hst' & Hout).
  exists s, s'. split; [exact Hrun|]. split; [exact Hrun'|].
  split; [exact Hout|]. split; [exact Hst'|]. split.
  - intros Hnone. rewrite Hout, drop_app_length.
    unfold output_of. cbn [ev_Object ev_Type previous_side]. rewrite Hnone. reflexivity.
  - intros Hnever. rewrite Hst, cacheKey_current. by apply cache_never_seen.
Qed.

(** C2, as amended. A CREATE event for a document [u], after any events: the
    block printed is the CREATE header and the YAML of the current document
    alone, whether or not the cache already holds the identity (the cache is
    not read), and the current document is then what the cache holds under
    that identity. *)
Theorem create_prints_current_only
    (events : list Event) (hideManagedFields : bool) (u : Unstructured) (s0 : state) :
  exists s s',
    watcher events hideManagedFields s0 = Some (tt, s) /\
    watcher (events ++ [mkEvent Added (UnstructuredObject u)]) hideManagedFields s0
    = Some (tt, s') /\
    stdout s'
    = (stdout s
       ++ [header "CREATE" (diff.objectKey (current hideManagedFields u));
           TrimSpace (YamlMarshal (Some (current hideManagedFields u)));
           Lit (nl ++ nl)])%list /\
    previous_side (drop (length (stdout s)) (stdout s')) = None /\
    stored s'
    = <[cacheKey (current hideManagedFields u) := current hideManagedFields u]> (stored s).
Proof.
  destruct (watcher_next events (mkEvent Added (UnstructuredObject u)) hideManagedFields s0)
    as (s & s' & Hrun & Hrun' & Hst & Hst' & Hout).
  exists s, s'. split; [exact Hrun|]. split; [exact Hrun'|].
  split; [exact Hout|]. split; [|exact Hst'].
  rewrite Hout, drop_app_length. reflexivity.
Qed.

(** C2 as stated fails: after CREATE of [nginx], the cache holds it under
    default/nginx; a second CREATE for that identity, with [nginx_v2], prints
    the YAML of [nginx_v2] and no diff, so the cached document is not the
    previous side of anything. *)
Lemma create_duplicate_has_no_previous_side :
  exists s s',
    watcher [added nginx] false boot = Some (tt, s) /\
    watcher [added nginx; added nginx_v2] false boot = Some (tt, s') /\
    cacheKey nginx_v2 = "default/nginx" /\
    stored s !! "default/nginx" = Some nginx /\
    drop (length (stdout s)) (stdout s')
    = [header "CREATE" "default/nginx"; TrimSpace (YamlMarshal (Some nginx_v2)); Lit (nl ++ nl)] /\
    previous_side (drop (length (stdout s)) (stdout s')) <> Some (Some nginx).
Proof.
  eexists _, _. split; [vm_compute; reflexivity|]. split; [vm_compute; reflexivity|].
  split; [vm_compute; reflexivity|]. split; [vm_compute; reflexivity|].
  split; [vm_compute; reflexivity|]. vm_compute. discriminate.
Qed.

(** C3. A DELETE event for a document [u], after any events: the identity is
    removed from the cache, which changes nothing when the cache did not hold
    it, and the block printed is the DELETE header line alone. *)
Theorem delete_removes_and_prints_header_only
    (events : list Event) (hideManagedFields : bool) (u : Unstructured) (s0 : state) :
  exists s s',
    watcher events hideManagedFields s0 = Some (tt, s) /\
    watcher (events ++ [mkEvent Deleted (UnstructuredObject u)]) hideManagedFields s0
    = Some (tt, s') /\
    stored s' = delete (cacheKey (current hideManagedFields u)) (stored s) /\
    stored s' !! cacheKey (current hideManagedFields u) = None /\
    (stored s !! cacheKey (current hideManagedFields u) = None -> stored s' = stored s) /\
    stdout s'
    = (stdout s ++ [header "DELETE" (diff.objectKey (current hideManagedFields u))])%list.
Proof.
  destruct (watcher_next events (mkEvent Deleted (UnstructuredObject u)) hideManagedFields s0)
    as (s & s' & Hrun & Hrun' & Hst & Hst' & Hout).
  exists s, s'. split; [exact Hrun|]. split; [exact Hrun'|].
  split; [exact Hst'|]. split; [rewrite Hst'; apply lookup_delete_eq|].
  split; [|exact Hout].
  intros Hnone. rewrite Hst'. by apply delete_id.
Qed.

(** C4, as amended. After any events, the block an event for a document [u]
    adds to the output starts, for each of the three kinds, with a header line
    of one format: the action, the key and the rule.  For CREATE and for
    UPDATE the body and a blank line follow; for DELETE the header line is the
    whole block.  The same holds of the output as a string, whatever the
    library calls return. *)
Theorem blocks_share_header_and_blank_line_follows_bodies
    (events : list Event) (hideManagedFields : bool) (u : Unstructured) (s0 : state)
    (L : TextLibrary) :
  exists s,
    watcher events hideManagedFields s0 = Some (tt, s) /\
    (exists s' body,
        watcher (events ++ [mkEvent Added (UnstructuredObject u)]) hideManagedFields s0
        = Some (tt, s') /\
        stdout s'
        = (stdout s ++ [header "CREATE" (diff.objectKey (current hideManagedFields u));
                        TrimSpace body; Lit (nl ++ nl)])%list /\
        render_all L (drop (length (stdout s)) (stdout s'))
        = header_line "CREATE" (diff.objectKey (current hideManagedFields u))
          ++ lib_TrimSpace L (render L body) ++ nl ++ nl) /\
    (exists s' body,
        watcher (events ++ [mkEvent Modified (UnstructuredObject u)]) hideManagedFields s0
        = Some (tt, s') /\
        stdout s'
        = (stdout s ++ [header "UPDATE" (diff.objectKey (current hideManagedFields u));
                        TrimSpace body; Lit (nl ++ nl)])%list /\
        render_all L (drop (length (stdout s)) (stdout s'))
        = header_line "UPDATE" (diff.objectKey (current hideManagedFields u))
          ++ lib_TrimSpace L (render L body) ++ nl ++ nl) /\
    (exists s',
        watcher (events ++ [mkEvent Deleted (UnstructuredObject u)]) hideManagedFields s0
        = Some (tt, s') /\
        stdout s'
        = (stdout s ++ [header "DELETE" (diff.objectKey (current hideManagedFields u))])%list /\
        render_all L (drop (length (stdout s)) (stdout s'))
        = header_line "DELETE" (diff.objectKey (current hideManagedFields u))).
Proof.
  destruct (watcher_next events (mkEvent Added (UnstructuredObject u)) hideManagedFields s0)
    as (s & sa & Hrun & Hruna & _ & _ & Houta).
  destruct (watcher_next events (mkEvent Modified (UnstructuredObject u)) hideManagedFields s0)
    as (s1 & sm & Hrun1 & Hrunm & _ & _ & Houtm).
  destruct (watcher_next events (mkEvent Deleted (UnstructuredObject u)) hideManagedFields s0)
    as (s2 & sd & Hrun2 & Hrund & _ & _ & Houtd).
  rewrite Hrun in Hrun1, Hrun2. injection Hrun1 as <-. injection Hrun2 as <-.
  exists s. split; [exact Hrun|]. split; [|split].
  - eexists sa, _. split; [exact Hruna|]. split; [exact Houta|].
    rewrite Houta, drop_app_length. unfold output_of, render_all, header.
    cbn [ev_Object ev_Type]. reflexivity.
  - eexists sm, _. split; [exact Hrunm|]. split; [exact Houtm|].
    rewrite Houtm, drop_app_length. unfold output_of, render_all, header.
    cbn [ev_Object ev_Type]. reflexivity.
  - exists sd. split; [exact Hrund|]. split; [exact Houtd|].
    rewrite Houtd, drop_app_length. unfold output_of, render_all, header.
    cbn [ev_Object ev_Type]. reflexivity.
Qed.

(** C4 as stated fails: the block the DELETE of [nginx] prints is its header
    line and nothing else, and that line ends with one newline, not with a
    blank line. *)
Lemma delete_block_has_no_blank_line :
  exists s s',
    watcher [added nginx] false boot = Some (tt, s) /\
    watcher [added nginx; deleted nginx] false boot = Some (tt, s') /\
    drop (length (stdout s)) (stdout s') = [Lit (header_line "DELETE" "default/nginx")] /\
    (forall L, render_all L (drop (length (stdout s)) (stdout s'))
               = header_line "DELETE" "default/nginx") /\
    ends_with nl (header_line "DELETE" "default/nginx") = true /\
    ends_with (nl ++ nl) (header_line "DELETE" "default/nginx") = false.
Proof.
  eexists _, _. split; [vm_compute; reflexivity|]. split; [vm_compute; reflexivity|].
  split; [vm_compute; reflexivity|]. split; [intros L; vm_compute; reflexivity|].
  split; vm_compute; reflexivity.
Qed.

(** C10. With managed fields hidden, after any events every document the
    cache holds is without its managed fields; so the previous side of the
    diff a later UPDATE prints, taken from the cache, is without them too. *)
Theorem cached_documents_have_no_managed_fields
    (events : list Event) (s0 : state) :
  exists s,
    watcher events true s0 = Some (tt, s) /\
    (forall k v, stored s !! k = Some v -> hasManagedFields v = false) /\
    (forall u, exists s' previous,
        watcher (events ++ [mkEvent Modified (UnstructuredObject u)]) true s0 = Some (tt, s') /\
        previous_side (drop (length (stdout s)) (stdout s')) = Some previous /\
        previous = stored s !! cacheKey (SetManagedFieldsNil u) /\
        match previous with
        | Some p => hasManagedFields p = false
        | None => True
        end).
Proof.
  destruct (watcher_spec events true s0) as (s & Hrun & _ & Hst).
  exists s. split; [exact Hrun|].
  assert (Hclean : forall k v, stored s !! k = Some v -> hasManagedFields v = false).
  { intros k v. rewrite Hst. apply cache_of_no_managed. }
  split; [exact Hclean|]. intros u.
  destruct (watcher_next events (mkEvent Modified (UnstructuredObject u)) true s0)
    as (s1 & s' & Hrun1 & Hrun' & _ & _ & Hout).
  rewrite Hrun in Hrun1. injection Hrun1 as <-.
  exists s', (stored s !! cacheKey (SetManagedFieldsNil u)).
  split; [exact Hrun'|]. split.
  { rewrite Hout, drop_app_length. reflexivity. }
  split; [reflexivity|].
  destruct (stored s !! cacheKey (SetManagedFieldsNil u)) as [p|] eqn:Hp; [|exact I].
  by apply (Hclean _ _ Hp).
Qed.

(** * The cache and its callers *)

Lemma store_run (s : state) (l : loc) (v w : Unstructured) :
  heap s !! l = Some v ->
  store l w s = Some (tt, mkState (<[l := w]> (heap s)) (resources s) (stdout s)).
Proof. intros Hl. unfold store. rewrite Hl. reflexivity. Qed.

(** Overwriting an object the cache does not point to leaves the stored
    documents as they are. *)
Lemma store_outside_cache (s : state) (obj : loc) (v w : Unstructured) :
  heap s !! obj = Some v ->
  (forall k l, resources s !! k = Some l -> l <> obj) ->
  exists s', store obj w s = Some (tt, s') /\ stored s' = stored s /\
             resources s' = resources s /\ heap s' = <[obj := w]> (heap s).
Proof.
  intros Hobj Hout. eexists. split; [apply (store_run _ _ _ _ Hobj)|].
  split; [|split; reflexivity].
  apply stored_frame. intros k l Hl. apply lookup_insert_ne.
  intros <-. by apply (Hout _ _ Hl).
Qed.

Lemma client_inv_extends (s s' : state) (held : list loc) :
  extends s s' ->
  (forall p, p ∈ held -> is_Some (heap s !! p)) ->
  forall p, p ∈ held -> is_Some (heap s' !! p).
Proof. intros Hext Hheld p Hp. destruct (Hheld p Hp) as [x Hx]. exists x. by apply Hext. Qed.

Lemma client_step_inv (op : clientOp) (s : state) (held : list loc) :
  client_inv s held ->
  exists held' s', client_step held op s = Some (held', s') /\ client_inv s' held'.
Proof.
  intros (Hwf & Hheld & Hsep). destruct op as [v|i|i|i|i w]; cbn [client_step].
  - (* NewObject *)
    eexists _, _. split; [reflexivity|]. split; [by apply wf_alloc|]. split.
    + intros p Hp. cbn [heap]. apply elem_of_app in Hp as [Hp|Hp].
      * destruct (Hheld p Hp) as [x Hx]. exists x. rewrite lookup_insert_ne; [done|].
        intros <-. rewrite fresh_heap in Hx. discriminate.
      * apply list_elem_of_singleton in Hp as ->. rewrite lookup_insert_eq. by eexists.
    + intros k l Hl Hin. cbn [resources] in Hl. apply elem_of_app in Hin as [Hin|Hin].
      * by apply (Hsep _ _ Hl).
      * apply list_elem_of_singleton in Hin as ->.
        destruct (Hwf _ _ Hl) as [x Hx]. rewrite fresh_heap in Hx. discriminate.
  - (* CallGet *)
    destruct (held !! i) as [obj|] eqn:Hi; [|by exists held, s].
    destruct (Hheld obj) as [v Hobj]; [by eapply list_elem_of_lookup_2|].
    destruct (rc_Get_spec s obj v Hwf Hobj)
      as (r & s' & Hget & Hwf' & Hres & _ & _ & Hext & Hr).
    rewrite (bind_Some _ _ _ _ _ Hget). eexists _, s'. split; [reflexivity|].
    split; [exact Hwf'|]. destruct r as [p|].
    + destruct Hr as (Hp & e & He & _). split.
      * intros q Hq. apply elem_of_app in Hq as [Hq|Hq].
        -- by apply (client_inv_extends s s' held).
        -- apply list_elem_of_singleton in Hq as ->. by eexists.
      * intros k l Hl Hin. rewrite Hres in Hl. apply elem_of_app in Hin as [Hin|Hin].
        -- by apply (Hsep _ _ Hl).
        -- apply list_elem_of_singleton in Hin as ->.
           destruct (Hwf _ _ Hl) as [x Hx]. congruence.
    + split; [by apply (client_inv_extends s s' held)|].
      intros k l Hl. rewrite Hres in Hl. by apply (Hsep _ _ Hl).
  - (* CallSet *)
    destruct (held !! i) as [obj|] eqn:Hi; [|by exists held, s].
    destruct (Hheld obj) as [v Hobj]; [by eapply list_elem_of_lookup_2|].
    destruct (rc_Set_spec s obj v Hwf Hobj)
      as (s' & Hset & Hwf' & _ & _ & Hext & c & Hc & _ & Hres).
    rewrite (bind_Some _ _ _ _ _ Hset). eexists _, s'. split; [reflexivity|].
    split; [exact Hwf'|]. split; [by apply (client_inv_extends s s' held)|].
    intros k l Hl Hin. rewrite Hres in Hl.
    destruct (decide (cacheKey v = k)) as [<-|Hne].
    + rewrite lookup_insert_eq in Hl. injection Hl as <-.
      destruct (Hheld c Hin) as [x Hx]. congruence.
    + rewrite lookup_insert_ne in Hl by done. by apply (Hsep _ _ Hl).
  - (* CallDelete *)
    destruct (held !! i) as [obj|] eqn:Hi; [|by exists held, s].
    destruct (Hheld obj) as [v Hobj]; [by eapply list_elem_of_lookup_2|].
    destruct (rc_Delete_spec s obj v Hwf Hobj)
      as (s' & Hdel & Hwf' & _ & _ & Hheap & Hres).
    rewrite (bind_Some _ _ _ _ _ Hdel). eexists _, s'. split; [reflexivity|].
    split; [exact Hwf'|]. split; [intros p Hp; rewrite Hheap; by apply Hheld|].
    intros k l Hl. rewrite Hres in Hl. apply lookup_delete_Some in Hl as [_ Hl].
    by apply (Hsep _ _ Hl).
  - (* Mutate *)
    destruct (held !! i) as [obj|] eqn:Hi; [|by exists held, s].
    destruct (Hheld obj) as [v Hobj]; [by eapply list_elem_of_lookup_2|].
    rewrite (bind_Some _ _ _ _ _ (store_run _ _ _ w Hobj)).
    eexists _, _. split; [reflexivity|]. split; [|split].
    + intros k l Hl. cbn [resources heap] in *. destruct (Hwf _ _ Hl) as [x Hx].
      destruct (decide (obj = l)) as [->|Hne].
      * rewrite lookup_insert_eq. by eexists.
      * rewrite lookup_insert_ne by done. by eexists.
    + intros p Hp. cbn [heap]. destruct (Hheld p Hp) as [x Hx].
      destruct (decide (obj = p)) as [->|Hne].
      * rewrite lookup_insert_eq. by eexists.
      * rewrite lookup_insert_ne by done. by eexists.
    + exact Hsep.
Qed.

Lemma client_loop_inv (ops : list clientOp) (s : state) (held : list loc) :
  client_inv s held ->
  exists held' s', client_loop held ops s = Some (held', s') /\ client_inv s' held'.
Proof.
  revert s held. induction ops as [|op rest IH]; intros s held Hinv.
  - by exists held, s.
  - destruct (client_step_inv op s held Hinv) as (held1 & s1 & Hstep & Hinv1).
    destruct (IH s1 held1 Hinv1) as (held' & s' & Hrest & Hinv').
    exists held', s'. cbn [client_loop]. rewrite (bind_Some _ _ _ _ _ Hstep). by split.
Qed.

(** C9. Whatever a caller has done with the cache and with the objects it
    holds (among them every pointer [Get] returned and every pointer given to
    [Set]), in the state reached and for each object held: [Get] changes no
    stored document, returns nil exactly when the cache holds nothing under
    the identity of the object, and otherwise returns a pointer to an object
    with the stored content, overwriting which leaves every stored document as
    it was; [Set] stores the content of the object, and overwriting the object
    afterwards leaves every stored document as [Set] left it. *)
Theorem cache_hands_out_isolated_copies (ops : list clientOp) (s0 : state) :
  exists held s,
    client ops s0 = Some (held, s) /\
    forall obj, obj ∈ held ->
      exists v, heap s !! obj = Some v /\
      (exists r s1,
          rc_Get obj s = Some (r, s1) /\ stored s1 = stored s /\
          match r with
          | None => stored s !! cacheKey v = None
          | Some p =>
              is_Some (stored s !! cacheKey v) /\
              heap s1 !! p = stored s !! cacheKey v /\
              forall w, exists s2, store p w s1 = Some (tt, s2) /\ stored s2 = stored s
          end) /\
      (exists s1,
          rc_Set obj s = Some (tt, s1) /\
          stored s1 = <[cacheKey v := v]> (stored s) /\
          forall w, exists s2, store obj w s1 = Some (tt, s2) /\ stored s2 = stored s1).
Proof.
  assert (Hinit : client_inv (mkState (heap s0) ∅ (stdout s0)) []).
  { split; [apply wf_newResourceCache|]. split.
    - intros p Hp. by apply elem_of_nil in Hp.
    - intros k l Hl. cbn [resources] in Hl. rewrite lookup_empty in Hl. discriminate. }
  destruct (client_loop_inv ops _ _ Hinit) as (held & s & Hrun & Hwf & Hheld & Hsep).
  exists held, s. split; [exact Hrun|]. intros obj Hin.
  destruct (Hheld obj Hin) as [v Hobj]. exists v. split; [exact Hobj|]. split.
  - destruct (rc_Get_spec s obj v Hwf Hobj)
      as (r & s1 & Hget & Hwf1 & Hres1 & _ & Hst1 & _ & Hr).
    exists r, s1. split; [exact Hget|]. split; [exact Hst1|].
    destruct r as [p|]; [|exact Hr].
    destruct Hr as (Hp & e & He & Hprev). split; [by rewrite Hprev; eexists|].
    split; [by rewrite He, Hprev|]. intros w.
    destruct (store_outside_cache s1 p e w He) as (s2 & Hstore & Hst2 & _).
    { intros k l Hl ->. rewrite Hres1 in Hl. destruct (Hwf _ _ Hl) as [x Hx]. congruence. }
    exists s2. split; [exact Hstore|]. by rewrite Hst2.
  - destruct (rc_Set_spec s obj v Hwf Hobj)
      as (s1 & Hset & _ & _ & Hst1 & Hext & c & Hc & _ & Hres1).
    exists s1. split; [exact Hset|]. split; [exact Hst1|]. intros w.
    destruct (store_outside_cache s1 obj v w (Hext _ _ Hobj)) as (s2 & Hstore & Hst2 & _).
    { intros k l Hl ->. rewrite Hres1 in Hl.
      destruct (decide (cacheKey v = k)) as [<-|Hne].
      - rewrite lookup_insert_eq in Hl. injection Hl as <-. congruence.
      - rewrite lookup_insert_ne in Hl by done. by apply (Hsep _ _ Hl). }
    exists s2. by split.
Qed.

(** A caller that stores [nginx], overwrites its own object with [nginx_v2],
    reads the entry back and overwrites the copy it got: the cache still holds
    [nginx]. *)
Example cache_isolation_run :
  exists held s,
    client [NewObject nginx; CallSet 0; Mutate 0 nginx_v2; CallGet 0; Mutate 1 nginx_managed]
           boot = Some (held, s) /\
    length held = 2 /\
    stored s = {[ "default/nginx" := nginx ]}.
Proof.
  eexists _, _. split; [vm_compute; reflexivity|]. split; vm_compute; reflexivity.
Qed.

(** * The differ *)

Section DifferFacts.

Context {Theme JSONPath Path Time : Type}.
Variable lib : diff.Library JSONPath Path Time.

Local Abbreviation world := (diff.world Theme).
Local Abbreviation Differ := (@diff.Differ Theme JSONPath Path).

Lemma try_run {X} (prefix : string) (r : diff.result X) (w : world) :
  diff.try prefix r w
  = (match r with
     | diff.Ok x => diff.Ok x
     | diff.Err e => diff.Err (diff.Errorf prefix e)
     end, w).
Proof. destruct r; reflexivity. Qed.

Lemma bind_Ok {X Y} (m : diff.R Theme X) (k : X -> diff.R Theme Y) (w w' : world) (x : X) :
  m w = (diff.Ok x, w') -> diff.bind m k w = k x w'.
Proof. intros H. unfold diff.bind. rewrite H. reflexivity. Qed.

Lemma bind_Err {X Y} (m : diff.R Theme X) (k : X -> diff.R Theme Y) (w w' : world) (e : diff.error) :
  m w = (diff.Err e, w') -> diff.bind m k w = (diff.Err e, w').
Proof. intros H. unfold diff.bind. rewrite H. reflexivity. Qed.

(** The loop stops at the first path that cannot be removed. *)
Lemma removePaths_fails (genericObj remaining : diff.genericMap)
    (before after : list Path) (excludePath : Path) (err : diff.error) (w : world) :
  fst (diff.removePaths lib genericObj before w) = diff.Ok remaining ->
  diff.RemovePath lib remaining excludePath = diff.Err err ->
  diff.removePaths lib genericObj (before ++ excludePath :: after) w
  = (diff.Err (diff.Errorf ("failed to apply exclude expression "
                            ++ diff.formatPath lib excludePath ++ ": ") err), w).
Proof.
  revert genericObj. induction before as [|p rest IH]; intros genericObj Hbefore Hfail.
  - cbn in Hbefore. injection Hbefore as ->.
    cbn [app diff.removePaths]. unfold diff.bind. rewrite try_run, Hfail. reflexivity.
  - cbn [app diff.removePaths] in *. unfold diff.bind in *. rewrite try_run in *.
    destruct (diff.RemovePath lib genericObj p); [by apply IH | discriminate].
Qed.

Lemma silent_ret {X} (x : X) : silent (diff.ret (Theme:=Theme) x).
Proof. intros w w0. reflexivity. Qed.

Lemma silent_try {X} (prefix : string) (r : diff.result X) :
  silent (diff.try (Theme:=Theme) prefix r).
Proof. intros w w0. rewrite !try_run. reflexivity. Qed.

Lemma silent_bind {X Y} (m : diff.R Theme X) (k : X -> diff.R Theme Y) :
  silent m -> (forall x, silent (k x)) -> silent (diff.bind m k).
Proof.
  intros Hm Hk w w0. unfold diff.bind. rewrite (Hm w w0), (Hm w0 w0).
  destruct (fst (m w0)) as [x|e]; [apply Hk | reflexivity].
Qed.

Lemma silent_removePaths (genericObj : diff.genericMap) (excludePaths : list Path) :
  silent (diff.removePaths (Theme:=Theme) lib genericObj excludePaths).
Proof.
  revert genericObj. induction excludePaths as [|p rest IH]; intros genericObj.
  - apply silent_ret.
  - cbn [diff.removePaths]. apply silent_bind; [apply silent_try | exact IH].
Qed.

Lemma silent_applyExcludes (d : Differ) (generic : string) (genericObj : diff.genericMap) :
  silent (diff.applyExcludes (Theme:=Theme) lib d generic genericObj).
Proof.
  unfold diff.applyExcludes.
  destruct (diff.parsedExcludePaths (diff.opt d)) as [|p rest]; [apply silent_ret|].
  apply silent_bind; [apply silent_removePaths | intros; apply silent_try].
Qed.

Lemma silent_stable {X} (m : diff.R Theme X) : silent m -> stable m.
Proof. intros Hm w w0. rewrite (Hm w w0), (Hm w0 w0). by split. Qed.

Lemma stable_ret {X} (x : X) : stable (diff.ret (Theme:=Theme) x).
Proof. intros w w0. by split. Qed.

Lemma stable_try {X} (prefix : string) (r : diff.result X) :
  stable (diff.try (Theme:=Theme) prefix r).
Proof. intros w w0. rewrite !try_run. by split. Qed.

Lemma stable_log_Warnf (format : string) (err : diff.error) :
  stable (diff.log_Warnf (Theme:=Theme) format err).
Proof. intros w w0. by split. Qed.

Lemma stable_bind {X Y} (m : diff.R Theme X) (k : X -> diff.R Theme Y) :
  stable m -> (forall x, stable (k x)) -> stable (diff.bind m k).
Proof.
  intros Hm Hk w w0. destruct (Hm w w0) as [Hfst Hprinted]. unfold diff.bind.
  destruct (m w) as [r w1], (m w0) as [r0 w2]. cbn [fst snd] in *. subst r0.
  destruct r as [x|e]; [|by split].
  destruct (Hk x w1 w2) as [Hkfst Hkprinted]. split; [exact Hkfst|].
  by rewrite Hkprinted.
Qed.

Lemma stable_applyExcludes (d : Differ) (generic : string) (genericObj : diff.genericMap) :
  stable (diff.applyExcludes (Theme:=Theme) lib d generic genericObj).
Proof. apply silent_stable, silent_applyExcludes. Qed.

Lemma stable_applyJSONPath (d : Differ) (generic : string) (genericObj : diff.genericMap) :
  stable (diff.applyJSONPath lib d generic genericObj).
Proof.
  unfold diff.applyJSONPath.
  destruct (diff.compiledJSONPath (diff.opt d)) as [p|]; [|apply stable_ret].
  destruct (diff.FindResults lib p genericObj) as [[|[|r rest] results]|err].
  - apply stable_ret.
  - apply stable_ret.
  - apply stable_bind; [apply stable_try|]. intros generic'.
    apply stable_bind; [apply stable_try|]. intros genericObj'. apply stable_ret.
  - apply stable_bind; [apply stable_log_Warnf|]. intros []. apply stable_ret.
Qed.

(** What [preprocess] returns does not depend on what has been written, and
    it gives nothing to [color.Print]. *)
Lemma stable_preprocess (d : Differ) (obj : option Unstructured) :
  stable (diff.preprocess lib d obj).
Proof.
  destruct obj as [o|]; [|apply stable_ret]. unfold diff.preprocess.
  apply stable_bind; [apply stable_try|]. intros generic.
  apply stable_bind; [apply stable_try|]. intros genericObj.
  apply stable_bind; [apply stable_applyJSONPath|]. intros [generic' genericObj'].
  apply stable_bind; [apply stable_applyExcludes|]. intros generic''.
  apply stable_bind; [apply stable_try|]. intros final. apply stable_ret.
Qed.

End DifferFacts.

(** C6. A nil object is pre-processed to the empty string, with no error and
    nothing written. *)
Theorem preprocess_nil_is_empty {Theme JSONPath Path Time : Type}
    (lib : diff.Library JSONPath Path Time) (d : @diff.Differ Theme JSONPath Path)
    (w : diff.world Theme) :
  diff.preprocess lib d None w = (diff.Ok "", w).
Proof. reflexivity. Qed.

(** C7. An object whose first encoding and decoding succeed.  When a JSON
    path is configured and its evaluation fails, [preprocess] logs one warning
    and returns what it returns with no JSON path configured.  When removing
    one of the exclude paths fails, the paths before it having been removed,
    [preprocess] returns the error of that path. *)
Theorem selector_failure_warns_exclude_failure_fails
    {Theme JSONPath Path Time : Type}
    (lib : diff.Library JSONPath Path Time) (options : diff.Options Theme JSONPath Path)
    (o : Unstructured) (w : diff.world Theme)
    (generic : string) (genericObj : diff.genericMap) :
  diff.json_Marshal lib (diff.AnyUnstructured o) = diff.Ok generic ->
  diff.json_Unmarshal lib generic None = diff.Ok genericObj ->
  (forall jsonPath err,
      diff.compiledJSONPath options = Some jsonPath ->
      diff.FindResults lib jsonPath genericObj = diff.Err err ->
      diff.preprocess lib (diff.mkDiffer options) (Some o) w
      = (fst (diff.preprocess lib (diff.mkDiffer (without_JSONPath options)) (Some o) w),
         diff.mkWorld (diff.log w ++ [diff.Warnf "Failed to apply JSON path: %w" err])
                      (diff.printed w))) /\
  (forall generic' genericObj' w' before excludePath after remaining err,
      diff.applyJSONPath lib (diff.mkDiffer options) generic genericObj w
      = (diff.Ok (generic', genericObj'), w') ->
      diff.parsedExcludePaths options = (before ++ excludePath :: after)%list ->
      fst (diff.removePaths lib genericObj' before w') = diff.Ok remaining ->
      diff.RemovePath lib remaining excludePath = diff.Err err ->
      diff.preprocess lib (diff.mkDiffer options) (Some o) w
      = (diff.Err (diff.Errorf ("failed to apply exclude expression "
                                ++ diff.formatPath lib excludePath ++ ": ") err), w')).
Proof.
  intros Hmarshal Hunmarshal.
  assert (Hstart : forall d : @diff.Differ Theme JSONPath Path,
             diff.preprocess lib d (Some o) w
             = diff.bind (diff.applyJSONPath lib d generic genericObj)
                 (fun selected =>
                    let '(generic, genericObj) := selected in
                    diff.bind (diff.applyExcludes lib d generic genericObj)
                      (fun generic =>
                         diff.bind (diff.try "failed to encode object as YAML: "
                                             (diff.JSONToYAML lib generic))
                                   (fun final => diff.ret final))) w).
  { intros d. unfold diff.preprocess.
    rewrite (bind_Ok _ _ w w generic) by (by rewrite try_run, Hmarshal).
    rewrite (bind_Ok _ _ w w genericObj) by (by rewrite try_run, Hunmarshal).
    reflexivity. }
  assert (Htail : forall (d : @diff.Differ Theme JSONPath Path) g gobj,
             silent (diff.bind (diff.applyExcludes lib d g gobj)
                       (fun generic =>
                          diff.bind (diff.try "failed to encode object as YAML: "
                                              (diff.JSONToYAML lib generic))
                                    (fun final => diff.ret final)))).
  { intros d g gobj. apply silent_bind; [apply silent_applyExcludes|]. intros g'.
    apply silent_bind; [apply silent_try|]. intros final. apply silent_ret. }
  split.
  - intros jsonPath err Hpath Hfind. rewrite !Hstart.
    rewrite (bind_Ok _ _ w
               (diff.mkWorld (diff.log w ++ [diff.Warnf "Failed to apply JSON path: %w" err])
                             (diff.printed w)) (generic, genericObj)).
    2:{ unfold diff.applyJSONPath. cbn [diff.opt]. rewrite Hpath, Hfind. reflexivity. }
    rewrite (bind_Ok _ _ w w (generic, genericObj)) by reflexivity.
    rewrite (Htail (diff.mkDiffer options) generic genericObj _ w).
    reflexivity.
  - intros generic' genericObj' w' before excludePath after remaining err
           Hselected Hpaths Hbefore Hfail.
    rewrite Hstart. rewrite (bind_Ok _ _ w w' (generic', genericObj') Hselected).
    apply bind_Err. unfold diff.applyExcludes. cbn [diff.opt]. rewrite Hpaths.
    assert (Hloop := removePaths_fails lib genericObj' remaining before after excludePath
                                       err w' Hbefore Hfail).
    destruct before as [|p rest]; cbn [app] in *; by apply bind_Err.
Qed.

(** C7 at work: with a JSON path whose evaluation fails, the text comes out
    and a warning is logged; with the exclude path named bad, whose removal
    fails, an error comes out. *)
Lemma selector_failure_warns_exclude_failure_fails_sample :
  diff.preprocess sample_library (diff.mkDiffer (sample_options (Some ".status") []))
                  (Some nginx) quiet
  = (diff.Ok "{}",
     diff.mkWorld [diff.Warnf "Failed to apply JSON path: %w" "no such field"] []) /\
  diff.preprocess sample_library (diff.mkDiffer (sample_options None ["good"; "bad"; "other"]))
                  (Some nginx) quiet
  = (diff.Err "failed to apply exclude expression bad: invalid path", quiet).
Proof.
  split.
  - exact (proj1 (selector_failure_warns_exclude_failure_fails
                    sample_library (sample_options (Some ".status") []) nginx quiet
                    "{}" (Some ∅) eq_refl eq_refl)
                 ".status" "no such field" eq_refl eq_refl).
  - exact (proj2 (selector_failure_warns_exclude_failure_fails
                    sample_library (sample_options None ["good"; "bad"; "other"]) nginx quiet
                    "{}" (Some ∅) eq_refl eq_refl)
                 "{}" (Some ∅) quiet ["good"] "bad" ["other"] (Some ∅) "invalid path"
                 eq_refl eq_refl eq_refl eq_refl).
Defined.


(** C5, as amended.  [Differ.PrintDiff], when both objects are pre-processed
    without error, hands [color.Print] one diff of the two texts under the two
    titles, asked for with the configured [ContextLines] and with the theme of
    the event kind: the delete theme when the new object is nil, else the
    create theme when the old one is nil, else the update theme; on an error it
    prints nothing.  The diff the watch loop prints for an UPDATE event is a
    [difflib] unified diff asked for with 3 lines of context, whatever the
    events and the flag, and names no theme. *)
Theorem PrintDiff_context_is_configured_watcher_context_is_three
    {Theme JSONPath Path Time : Type}
    (lib : diff.Library JSONPath Path Time) (d : @diff.Differ Theme JSONPath Path)
    (oldObj newObj : option Unstructured) (lastSeen now : Time) (w : diff.world Theme)
    (events : list Event) (hideManagedFields : bool) (u : Unstructured) (s0 : state) :
  match diff.PrintDiff lib d oldObj newObj lastSeen now w with
  | (diff.Ok _, w') =>
      exists oldString newString,
        fst (diff.preprocess lib d oldObj w) = diff.Ok oldString /\
        fst (diff.preprocess lib d newObj w) = diff.Ok newString /\
        diff.printed w'
        = (diff.printed w
           ++ [diff.mkColorDiff oldString newString
                 (diff.diffTitle lib oldObj lastSeen) (diff.diffTitle lib newObj now)
                 (diff.ContextLines (diff.opt d))
                 (match newObj, oldObj with
                  | None, _ => diff.DeleteColorTheme (diff.opt d)
                  | Some _, None => diff.CreateColorTheme (diff.opt d)
                  | Some _, Some _ => diff.UpdateColorTheme (diff.opt d)
                  end)])%list
  | (diff.Err _, w') => diff.printed w' = diff.printed w
  end /\
  exists s s' previous,
    watcher events hideManagedFields s0 = Some (tt, s) /\
    watcher (events ++ [mkEvent Modified (UnstructuredObject u)]) hideManagedFields s0
    = Some (tt, s') /\
    drop (length (stdout s)) (stdout s')
    = [header "UPDATE" (diff.objectKey (current hideManagedFields u));
       TrimSpace (GetUnifiedDiffString
                    (mkUnifiedDiff (SplitLines (YamlMarshal previous))
                       (SplitLines (YamlMarshal (Some (current hideManagedFields u))))
                       "Previous" "Current" 3));
       Lit (nl ++ nl)] /\
    context_of (drop (length (stdout s)) (stdout s')) = Some 3%Z.
Proof.
  split.
  - unfold diff.PrintDiff, diff.bind, diff.wrap.
    destruct (stable_preprocess lib d oldObj w w) as [_ Hp1].
    destruct (diff.preprocess lib d oldObj w) as [[oldString|e1] w1] eqn:Hold;
      cbn [fst snd] in *; [|exact Hp1].
    destruct (stable_preprocess lib d newObj w1 w) as [Hf2 Hp2].
    destruct (diff.preprocess lib d newObj w1) as [[newString|e2] w2] eqn:Hnew;
      cbn [fst snd] in *; [|by rewrite Hp2].
    exists oldString, newString. split; [reflexivity|]. split; [by rewrite <- Hf2|].
    unfold diff.color_Print. cbn [diff.printed]. rewrite Hp2, Hp1.
    destruct newObj, oldObj; reflexivity.
  - destruct (watcher_next events (mkEvent Modified (UnstructuredObject u))
                           hideManagedFields s0)
      as (s & s' & Hrun & Hrun' & _ & _ & Hout).
    exists s, s', (stored s !! cacheKey (current hideManagedFields u)).
    split; [exact Hrun|]. split; [exact Hrun'|].
    rewrite Hout, drop_app_length. split; reflexivity.
Qed.

(** C5 as stated fails: with 10 context lines configured, the diff the watch
    loop prints for the UPDATE of [nginx] to [nginx_v2] is asked for with 3
    lines of context, where [Differ.PrintDiff] on the same two documents asks
    for 10. *)
Lemma watcher_diff_ignores_configured_context :
  exists s s',
    watcher [added nginx] false boot = Some (tt, s) /\
    watcher [added nginx; modified nginx_v2] false boot = Some (tt, s') /\
    drop (length (stdout s)) (stdout s')
    = [header "UPDATE" "default/nginx"; TrimSpace (diffOf (Some nginx) nginx_v2); Lit (nl ++ nl)] /\
    context_of (drop (length (stdout s)) (stdout s')) = Some 3%Z /\
    diff.ContextLines (sample_options None []) = 10%Z /\
    map diff.cd_context
        (diff.printed (snd (diff.PrintDiff sample_library
                              (diff.mkDiffer (sample_options None []))
                              (Some nginx) (Some nginx_v2) tt tt quiet)))
    = [10%Z] /\
    context_of (drop (length (stdout s)) (stdout s'))
    <> Some (diff.ContextLines (sample_options None [])).
Proof.
  eexists _, _. split; [vm_compute; reflexivity|]. split; [vm_compute; reflexivity|].
  split; [vm_compute; reflexivity|]. split; [vm_compute; reflexivity|].
  split; [reflexivity|]. split; [vm_compute; reflexivity|]. vm_compute. discriminate.
Qed.

(** * More about the watch loop *)

Lemma watcher_loop_blocks (hide : bool) (events : list Event) (s : state) :
  wf s ->
  exists s',
    watcher_loop hide events s = Some (tt, s') /\ wf s' /\
    stored s' = foldl (fun c event => cache_after hide event c) (stored s) events /\
    stdout s' = (stdout s ++ blocks hide events (stored s))%list.
Proof.
  revert s. induction events as [|event rest IH]; intros s Hwf.
  - exists s. cbn [blocks]. rewrite app_nil_r. by repeat split.
  - destruct (watcher_body_spec hide event s Hwf) as (s1 & Hrun & Hwf1 & Hst1 & Hout1).
    destruct (IH s1 Hwf1) as (s' & Hrest & Hwf' & Hst' & Hout').
    exists s'. cbn [watcher_loop blocks foldl]. rewrite (bind_Some _ _ _ _ _ Hrun).
    split; [exact Hrest|]. split; [exact Hwf'|].
    split; [by rewrite Hst', Hst1|].
    rewrite Hout', Hout1, Hst1, <- app_assoc. reflexivity.
Qed.

Lemma cache_of_snoc (hide : bool) (events : list Event) (event : Event) :
  cache_of hide (events ++ [event]) = cache_after hide event (cache_of hide events).
Proof. unfold cache_of. rewrite foldl_app. reflexivity. Qed.

Lemma cache_after_other (hide : bool) (event : Event) (c : gmap string Unstructured)
    (k : string) :
  ~ about k event -> cache_after hide event c !! k = c !! k.
Proof.
  unfold cache_after, about. intros Hother.
  destruct (ev_Object event) as [u|]; [|reflexivity].
  destruct (ev_Type event); try reflexivity.
  - apply lookup_insert_ne. by rewrite cacheKey_current.
  - apply lookup_insert_ne. by rewrite cacheKey_current.
  - apply lookup_delete_ne. by rewrite cacheKey_current.
Qed.

Lemma SetManagedFieldsNil_unmanaged (u : Unstructured) :
  hasManagedFields u = false -> SetManagedFieldsNil u = u.
Proof.
  destruct u as [obj]. unfold hasManagedFields, SetManagedFieldsNil. cbn [Object].
  simpl. intros Hnone. f_equal.
  destruct (obj !! "metadata") as [[| | | | |x]|] eqn:Hm; try reflexivity.
  destruct (x !! "managedFields") as [v|] eqn:Hx; [discriminate|].
  rewrite (delete_id _ _ Hx). by apply insert_id.
Qed.

Lemma watcher_body_strip (event : Event) (s : state) :
  watcher_body true event s = watcher_body false (strip_event event) s.
Proof.
  destruct event as [ty [u|]]; [|reflexivity].
  unfold strip_event. cbn [ev_Type ev_Object]. rewrite !watcher_body_received.
  reflexivity.
Qed.

Lemma watcher_loop_strip (events : list Event) (s : state) :
  watcher_loop true events s = watcher_loop false (map strip_event events) s.
Proof.
  revert s. induction events as [|event rest IH]; intros s; [reflexivity|].
  cbn [watcher_loop map]. unfold bind. rewrite watcher_body_strip.
  destruct (watcher_body false (strip_event event) s) as [[[] s']|]; [apply IH | reflexivity].
Qed.

Lemma strip_event_unmanaged (event : Event) :
  unmanaged event -> strip_event event = event.
Proof.
  destruct event as [ty [u|]]; unfold unmanaged, strip_event; cbn [ev_Type ev_Object];
    [|reflexivity].
  intros Hu. by rewrite SetManagedFieldsNil_unmanaged.
Qed.

Lemma append_cons (c : ascii) (a x : string) : String c a ++ x = String c (a ++ x).
Proof. reflexivity. Qed.

Lemma append_slash_inj (a b x y : string) :
  no_slash a = true -> no_slash b = true ->
  a ++ "/" ++ x = b ++ "/" ++ y -> a = b /\ x = y.
Proof.
  revert b. induction a as [|c a IH]; intros [|c' b] Ha Hb Heq.
  - change (String "/" x = String "/" y) in Heq. injection Heq as ->. by split.
  - change (String "/" x = String c' (b ++ "/" ++ y)) in Heq.
    injection Heq as <- _. cbn in Hb. discriminate.
  - change (String c (a ++ "/" ++ x) = String "/" y) in Heq.
    injection Heq as -> _. cbn in Ha. discriminate.
  - rewrite !append_cons in Heq. injection Heq as -> Heq.
    cbn [no_slash] in Ha, Hb.
    apply andb_true_iff in Ha as [_ Ha]. apply andb_true_iff in Hb as [_ Hb].
    destruct (IH b Ha Hb Heq) as [-> ->]. by split.
Qed.

Lemma cache_of_provenance (hide : bool) (events : list Event) (k : string) (v : Unstructured) :
  cache_of hide events !! k = Some v ->
  exists event u,
    event ∈ events /\ ev_Object event = UnstructuredObject u /\ writes event /\
    cacheKey u = k /\ v = current hide u.
Proof.
  revert k v. induction events as [|event events IH] using rev_ind; intros k v.
  - unfold cache_of. cbn [foldl]. rewrite lookup_empty. discriminate.
  - rewrite cache_of_snoc. intros Hk.
    assert (Hold : cache_of hide events !! k = Some v ->
                   exists e u, e ∈ (events ++ [event])%list /\
                               ev_Object e = UnstructuredObject u /\ writes e /\
                               cacheKey u = k /\ v = current hide u).
    { intros H. destruct (IH _ _ H) as (e & u & Hin & Hrest).
      exists e, u. split; [apply elem_of_app; by left | exact Hrest]. }
    assert (Hnew : forall u, ev_Object event = UnstructuredObject u -> writes event ->
                   <[cacheKey (current hide u) := current hide u]> (cache_of hide events) !! k
                   = Some v ->
                   exists e u, e ∈ (events ++ [event])%list /\
                               ev_Object e = UnstructuredObject u /\ writes e /\
                               cacheKey u = k /\ v = current hide u).
    { intros u Hobj Hw Hl. destruct (decide (cacheKey (current hide u) = k)) as [Hkey|Hne].
      - rewrite <- Hkey, lookup_insert_eq in Hl. injection Hl as <-.
        exists event, u. split; [apply elem_of_app; right; by apply list_elem_of_singleton|].
        split; [exact Hobj|]. split; [exact Hw|]. split; [|reflexivity].
        by rewrite <- Hkey, cacheKey_current.
      - rewrite lookup_insert_ne in Hl by done. by apply Hold. }
    unfold cache_after in Hk. destruct (ev_Object event) as [u|] eqn:Hobj; [|by apply Hold].
    destruct (ev_Type event) eqn:Hty; try by apply Hold.
    + apply (Hnew u); [reflexivity | by left | exact Hk].
    + apply (Hnew u); [reflexivity | by right | exact Hk].
    + apply lookup_delete_Some in Hk as [_ Hk]. by apply Hold.
Qed.

(** X1. Events the loop passes over: after any events, an event whose object
    is not an unstructured document, whatever its type, and a BOOKMARK or
    ERROR event for a document print nothing and leave what the cache holds as
    it is. *)
Theorem skipped_events_change_nothing
    (events : list Event) (hideManagedFields : bool) (ty : EventType) (u : Unstructured)
    (s0 : state) :
  exists s,
    watcher events hideManagedFields s0 = Some (tt, s) /\
    (exists s', watcher (events ++ [mkEvent ty OtherObject]) hideManagedFields s0
                = Some (tt, s') /\ stdout s' = stdout s /\ stored s' = stored s) /\
    (exists s', watcher (events ++ [mkEvent Bookmark (UnstructuredObject u)])
                        hideManagedFields s0
                = Some (tt, s') /\ stdout s' = stdout s /\ stored s' = stored s) /\
    (exists s', watcher (events ++ [mkEvent Error (UnstructuredObject u)])
                        hideManagedFields s0
                = Some (tt, s') /\ stdout s' = stdout s /\ stored s' = stored s).
Proof.
  destruct (watcher_next events (mkEvent ty OtherObject) hideManagedFields s0)
    as (s & s1 & Hrun & Hrun1 & _ & Hst1 & Hout1).
  destruct (watcher_next events (mkEvent Bookmark (UnstructuredObject u)) hideManagedFields s0)
    as (sa & s2 & Hruna & Hrun2 & _ & Hst2 & Hout2).
  destruct (watcher_next events (mkEvent Error (UnstructuredObject u)) hideManagedFields s0)
    as (sb & s3 & Hrunb & Hrun3 & _ & Hst3 & Hout3).
  rewrite Hrun in Hruna, Hrunb. injection Hruna as <-. injection Hrunb as <-.
  exists s. split; [exact Hrun|].
  split; [exists s1|split; [exists s2|exists s3]];
    (split; [assumption|]); (split; [|assumption]);
    match goal with H : stdout _ = _ |- stdout ?x = _ => rewrite H end;
    apply app_nil_r.
Qed.

(** X2. A whole run: a watcher never panics; it starts from an empty cache
    whatever state it is started in; what it prints is the blocks of its
    events in their order, each read against the cache the events before it
    left, and nothing else; and what the cache holds in the end is what the
    events, applied in order to the empty cache, leave. *)
Theorem watcher_prints_the_blocks_in_order
    (events : list Event) (hideManagedFields : bool) (s0 : state) :
  exists s,
    watcher events hideManagedFields s0 = Some (tt, s) /\
    stdout s = (stdout s0 ++ blocks hideManagedFields events ∅)%list /\
    stored s = foldl (fun c event => cache_after hideManagedFields event c) ∅ events.
Proof.
  destruct (wf_newResourceCache s0) as [Hwf Hst].
  destruct (watcher_loop_blocks hideManagedFields events _ Hwf)
    as (s & Hrun & _ & Hsts & Hout).
  exists s. split; [exact Hrun|]. rewrite Hst in Hsts, Hout. by split.
Qed.

(** X3. Hiding the managed fields is the same as receiving every document
    with its managed fields already removed: the two runs end in the same
    state, output and cache alike. *)
Theorem hiding_is_stripping_the_events (events : list Event) (s0 : state) :
  watcher events true s0 = watcher (map strip_event events) false s0.
Proof. unfold watcher, bind. cbn. apply watcher_loop_strip. Qed.

(** X4. A document written by a CREATE or an UPDATE event is what the next
    UPDATE event for the same identity is compared with: the previous side of
    its diff is the document as that earlier event stored it. *)
Theorem update_after_write_diffs_against_written
    (events : list Event) (hideManagedFields create : bool) (u u' : Unstructured)
    (s0 : state) :
  cacheKey u' = cacheKey u ->
  exists s1 s2,
    watcher (events ++ [mkEvent (if create then Added else Modified) (UnstructuredObject u)])
            hideManagedFields s0 = Some (tt, s1) /\
    watcher (events ++ [mkEvent (if create then Added else Modified) (UnstructuredObject u);
                        mkEvent Modified (UnstructuredObject u')])
            hideManagedFields s0 = Some (tt, s2) /\
    stdout s2
    = (stdout s1
       ++ [header "UPDATE" (diff.objectKey (current hideManagedFields u'));
           TrimSpace (diffOf (Some (current hideManagedFields u))
                             (current hideManagedFields u'));
           Lit (nl ++ nl)])%list.
Proof.
  intros Hkey.
  set (first := mkEvent (if create then Added else Modified) (UnstructuredObject u)).
  destruct (watcher_next events first hideManagedFields s0)
    as (s & s1 & _ & Hrun1 & _ & Hst1 & _).
  destruct (watcher_next (events ++ [first]) (mkEvent Modified (UnstructuredObject u'))
                         hideManagedFields s0)
    as (s1' & s2 & Hrun1' & Hrun2 & _ & _ & Hout2).
  rewrite Hrun1 in Hrun1'. injection Hrun1' as <-.
  rewrite <- app_assoc in Hrun2. exists s1, s2. split; [exact Hrun1|].
  split; [exact Hrun2|]. rewrite Hout2. unfold output_of. cbn [ev_Object ev_Type].
  assert (Hprev : stored s1 !! cacheKey (current hideManagedFields u')
                  = Some (current hideManagedFields u)).
  { rewrite Hst1. unfold cache_after, first. cbn [ev_Object ev_Type].
    rewrite (cacheKey_current _ u'), Hkey, <- (cacheKey_current hideManagedFields u).
    destruct create; apply lookup_insert_eq. }
  rewrite Hprev. reflexivity.
Qed.

(** X4 at work: [nginx] is created, then updated to [nginx_v2]. *)
Lemma update_after_write_diffs_against_written_sample :
  exists s1 s2,
    watcher ([] ++ [added nginx]) false boot = Some (tt, s1) /\
    watcher ([] ++ [added nginx; modified nginx_v2]) false boot = Some (tt, s2) /\
    stdout s2
    = (stdout s1
       ++ [header "UPDATE" (diff.objectKey nginx_v2);
           TrimSpace (diffOf (Some nginx) nginx_v2); Lit (nl ++ nl)])%list.
Proof.
  apply (update_after_write_diffs_against_written [] false true nginx nginx_v2 boot).
  vm_compute. reflexivity.
Defined.

(** X5. After a DELETE event for an identity, the next UPDATE event for that
    identity is compared with nothing: the previous side of its diff is
    absent. *)
Theorem update_after_delete_has_no_previous
    (events : list Event) (hideManagedFields : bool) (u u' : Unstructured) (s0 : state) :
  cacheKey u' = cacheKey u ->
  exists s1 s2,
    watcher (events ++ [mkEvent Deleted (UnstructuredObject u)]) hideManagedFields s0
    = Some (tt, s1) /\
    watcher (events ++ [mkEvent Deleted (UnstructuredObject u);
                        mkEvent Modified (UnstructuredObject u')])
            hideManagedFields s0 = Some (tt, s2) /\
    stdout s2
    = (stdout s1
       ++ [header "UPDATE" (diff.objectKey (current hideManagedFields u'));
           TrimSpace (diffOf None (current hideManagedFields u'));
           Lit (nl ++ nl)])%list.
Proof.
  intros Hkey.
  destruct (watcher_next events (mkEvent Deleted (UnstructuredObject u)) hideManagedFields s0)
    as (s & s1 & _ & Hrun1 & _ & Hst1 & _).
  destruct (watcher_next (events ++ [mkEvent Deleted (UnstructuredObject u)])
                         (mkEvent Modified (UnstructuredObject u')) hideManagedFields s0)
    as (s1' & s2 & Hrun1' & Hrun2 & _ & _ & Hout2).
  rewrite Hrun1 in Hrun1'. injection Hrun1' as <-.
  rewrite <- app_assoc in Hrun2. exists s1, s2. split; [exact Hrun1|].
  split; [exact Hrun2|]. rewrite Hout2. unfold output_of. cbn [ev_Object ev_Type].
  assert (Hprev : stored s1 !! cacheKey (current hideManagedFields u') = None).
  { rewrite Hst1. unfold cache_after. cbn [ev_Object ev_Type].
    rewrite (cacheKey_current _ u'), Hkey, <- (cacheKey_current hideManagedFields u).
    apply lookup_delete_eq. }
  rewrite Hprev. reflexivity.
Qed.

(** X5 at work: [nginx] is created and deleted, then [nginx_v2] arrives as an
    update. *)
Lemma update_after_delete_has_no_previous_sample :
  exists s1 s2,
    watcher ([added nginx] ++ [deleted nginx]) true boot = Some (tt, s1) /\
    watcher ([added nginx] ++ [deleted nginx; modified nginx_v2]) true boot = Some (tt, s2) /\
    stdout s2
    = (stdout s1
       ++ [header "UPDATE" (diff.objectKey (current true nginx_v2));
           TrimSpace (diffOf None (current true nginx_v2)); Lit (nl ++ nl)])%list.
Proof.
  apply (update_after_delete_has_no_previous [added nginx] true nginx nginx_v2 boot).
  vm_compute. reflexivity.
Defined.

(** X6. An event leaves the cache entries of all other identities alone:
    what the cache holds under a key the event is not about is the same
    before and after. *)
Theorem events_leave_other_identities_alone
    (events : list Event) (event : Event) (hideManagedFields : bool) (k : string)
    (s0 : state) :
  ~ about k event ->
  exists s s',
    watcher events hideManagedFields s0 = Some (tt, s) /\
    watcher (events ++ [event]) hideManagedFields s0 = Some (tt, s') /\
    stored s' !! k = stored s !! k.
Proof.
  intros Hother.
  destruct (watcher_next events event hideManagedFields s0)
    as (s & s' & Hrun & Hrun' & _ & Hst' & _).
  exists s, s'. split; [exact Hrun|]. split; [exact Hrun'|].
  rewrite Hst'. by apply cache_after_other.
Qed.

(** X6 at work: deleting [redis] leaves the entry of [nginx] in place. *)
Lemma events_leave_other_identities_alone_sample :
  exists s s',
    watcher [added nginx] false boot = Some (tt, s) /\
    watcher ([added nginx] ++ [deleted redis]) false boot = Some (tt, s') /\
    stored s' !! "default/nginx" = stored s !! "default/nginx".
Proof.
  apply (events_leave_other_identities_alone [added nginx] (deleted redis) false
                                             "default/nginx" boot).
  vm_compute. discriminate.
Defined.

(** X7. The cache key tells identities apart: two documents whose namespaces
    contain no slash have the same cache key only if they have the same
    namespace and the same name. *)
Theorem cacheKey_tells_identities_apart (u v : Unstructured) :
  no_slash (GetNamespace u) = true ->
  no_slash (GetNamespace v) = true ->
  cacheKey u = cacheKey v ->
  GetNamespace u = GetNamespace v /\ GetName u = GetName v.
Proof. intros Hu Hv Hkey. by apply append_slash_inj. Qed.

(** X7 at work: the two revisions of nginx. *)
Lemma cacheKey_tells_identities_apart_sample :
  GetNamespace nginx = GetNamespace nginx_v2 /\ GetName nginx = GetName nginx_v2.
Proof.
  apply (cacheKey_tells_identities_apart nginx nginx_v2); vm_compute; reflexivity.
Defined.

(** X8. The cache holds only what was delivered: after any events, every
    document the cache holds was the document of a CREATE or UPDATE event of
    the run, managed fields removed when hidden, and is held under the cache
    key of that document. *)
Theorem cache_holds_only_delivered_documents
    (events : list Event) (hideManagedFields : bool) (s0 : state) :
  exists s,
    watcher events hideManagedFields s0 = Some (tt, s) /\
    forall k v,
      stored s !! k = Some v ->
      exists event u,
        event ∈ events /\ ev_Object event = UnstructuredObject u /\ writes event /\
        cacheKey u = k /\ v = current hideManagedFields u.
Proof.
  destruct (watcher_spec events hideManagedFields s0) as (s & Hrun & _ & Hst).
  exists s. split; [exact Hrun|]. intros k v. rewrite Hst. apply cache_of_provenance.
Qed.

(** X9. On events whose documents carry no managed fields the flag makes no
    difference: the run with managed fields hidden and the run with them shown
    end in the same state. *)
Theorem hiding_nothing_changes_nothing (events : list Event) (s0 : state) :
  Forall unmanaged events ->
  watcher events true s0 = watcher events false s0.
Proof.
  intros Hall. unfold watcher, bind. cbn. rewrite watcher_loop_strip. f_equal.
  induction Hall as [|event rest Hevent _ IH]; [reflexivity|].
  cbn [map]. by rewrite (strip_event_unmanaged _ Hevent), IH.
Qed.

(** X9 at work: [nginx] created and updated, no managed fields in sight. *)
Lemma hiding_nothing_changes_nothing_sample :
  watcher [added nginx; modified nginx_v2] true boot
  = watcher [added nginx; modified nginx_v2] false boot.
Proof.
  apply (hiding_nothing_changes_nothing [added nginx; modified nginx_v2] boot).
  repeat constructor.
Defined.

(** X10. Removing the managed fields changes neither the key a block header
    shows nor the key the cache files the document under: both are those of
    the document as received. *)
Theorem hiding_keeps_the_keys (hideManagedFields : bool) (u : Unstructured) :
  diff.objectKey (current hideManagedFields u) = diff.objectKey u /\
  cacheKey (current hideManagedFields u) = cacheKey u.
Proof.
  split; [|apply cacheKey_current].
  destruct hideManagedFields; [apply objectKey_SetManagedFieldsNil | reflexivity].
Qed.

(** * More about the cache *)

(** X11. [Get] after [Set]: in a state where the cache points to objects,
    setting an object and then getting it returns a pointer to a new object
    with the content that was set; the pointer returned is neither the
    caller's nor the one the cache keeps, and the caller's object is as it
    was. *)
Theorem get_after_set_returns_a_copy (s : state) (obj : loc) (v : Unstructured) :
  wf s ->
  heap s !! obj = Some v ->
  exists s1 p s2,
    rc_Set obj s = Some (tt, s1) /\
    rc_Get obj s1 = Some (Some p, s2) /\
    heap s2 !! p = Some v /\
    heap s2 !! obj = Some v /\
    heap s !! p = None /\
    p <> obj /\
    resources s2 !! cacheKey v <> Some p /\
    resources s2 !! cacheKey v <> Some obj.
Proof.
  intros Hwf Hobj.
  destruct (rc_Set_spec s obj v Hwf Hobj)
    as (s1 & Hset & Hwf1 & _ & Hst1 & Hext1 & c & Hc & Hheap1 & Hres1).
  destruct (rc_Get_spec s1 obj v Hwf1 (Hext1 _ _ Hobj))
    as (r & s2 & Hget & _ & Hres2 & _ & _ & Hext2 & Hr).
  assert (Hstored : stored s1 !! cacheKey v = Some v) by (rewrite Hst1; apply lookup_insert_eq).
  destruct r as [p|]; [|rewrite Hstored in Hr; discriminate].
  destruct Hr as (Hp & e & He & Hprev). rewrite Hstored in Hprev. injection Hprev as <-.
  assert (Hcv : heap s1 !! c = Some v) by (rewrite Hheap1; apply lookup_insert_eq).
  exists s1, p, s2. split; [exact Hset|]. split; [exact Hget|]. split; [exact He|].
  split; [by apply Hext2, Hext1|].
  split.
  { rewrite Hheap1 in Hp. by apply lookup_insert_None in Hp as [Hp _]. }
  split; [intros ->; rewrite (Hext1 _ _ Hobj) in Hp; discriminate|].
  rewrite Hres2, Hres1, lookup_insert_eq. split; intros [= ->]; congruence.
Qed.

(** X11 at work: one object, [nginx], and an empty cache. *)
Lemma get_after_set_returns_a_copy_sample :
  exists s1 p s2,
    rc_Set 1%positive one_object = Some (tt, s1) /\
    rc_Get 1%positive s1 = Some (Some p, s2) /\
    heap s2 !! p = Some nginx /\
    heap s2 !! 1%positive = Some nginx /\
    heap one_object !! p = None /\
    p <> 1%positive /\
    resources s2 !! cacheKey nginx <> Some p /\
    resources s2 !! cacheKey nginx <> Some 1%positive.
Proof.
  apply (get_after_set_returns_a_copy one_object 1%positive nginx).
  - intros k l Hl. vm_compute in Hl. discriminate.
  - vm_compute. reflexivity.
Defined.

(** X12. [Delete]: deleting the identity of an object allocates and frees
    nothing; a [Get] for the identity then returns nil and changes nothing,
    and deleting once more changes nothing either. *)
Theorem delete_then_get_is_nil (s : state) (obj : loc) (v : Unstructured) :
  heap s !! obj = Some v ->
  exists s1,
    rc_Delete obj s = Some (tt, s1) /\
    heap s1 = heap s /\ stdout s1 = stdout s /\
    stored s1 = delete (cacheKey v) (stored s) /\
    rc_Get obj s1 = Some (None, s1) /\
    rc_Delete obj s1 = Some (tt, s1).
Proof.
  intros Hobj. eexists. split; [apply (rc_Delete_run _ _ _ Hobj)|].
  split; [reflexivity|]. split; [reflexivity|]. split; [apply stored_delete|].
  split.
  - apply (rc_Get_run_absent _ _ v); [exact Hobj | apply lookup_delete_eq].
  - rewrite (rc_Delete_run _ _ v) by exact Hobj. cbn [heap resources stdout].
    rewrite delete_id by apply lookup_delete_eq. reflexivity.
Qed.

(** X12 at work: [nginx] is in the cache and is deleted. *)
Lemma delete_then_get_is_nil_sample :
  exists s1,
    rc_Delete 1%positive one_cached = Some (tt, s1) /\
    heap s1 = heap one_cached /\ stdout s1 = stdout one_cached /\
    stored s1 = delete (cacheKey nginx) (stored one_cached) /\
    rc_Get 1%positive s1 = Some (None, s1) /\
    rc_Delete 1%positive s1 = Some (tt, s1).
Proof.
  apply (delete_then_get_is_nil one_cached 1%positive nginx).
  vm_compute. reflexivity.
Defined.

(** * More about the differ *)

Section PreprocessFacts.

Context {Theme JSONPath Path Time : Type}.
Variable lib : diff.Library JSONPath Path Time.

Local Abbreviation world := (diff.world Theme).
Local Abbreviation Differ := (@diff.Differ Theme JSONPath Path).

(** [preprocess] once the object is encoded and decoded. *)
Lemma preprocess_after_decode (d : Differ) (o : Unstructured) (w : world)
    (generic : string) (genericObj : diff.genericMap) :
  diff.json_Marshal lib (diff.AnyUnstructured o) = diff.Ok generic ->
  diff.json_Unmarshal lib generic None = diff.Ok genericObj ->
  diff.preprocess lib d (Some o) w
  = diff.bind (diff.applyJSONPath lib d generic genericObj)
      (fun selected =>
         let '(generic, genericObj) := selected in
         diff.bind (diff.applyExcludes lib d generic genericObj)
           (fun generic =>
              diff.bind (diff.try "failed to encode object as YAML: "
                                  (diff.JSONToYAML lib generic))
                        (fun final => diff.ret final))) w.
Proof.
  intros Hmarshal Hunmarshal. unfold diff.preprocess.
  rewrite (bind_Ok _ _ w w generic) by (by rewrite try_run, Hmarshal).
  rewrite (bind_Ok _ _ w w genericObj) by (by rewrite try_run, Hunmarshal).
  reflexivity.
Qed.

(** The steps of [preprocess] after the JSON path write nothing. *)
Lemma silent_after_JSONPath (d : Differ) (generic : string) (genericObj : diff.genericMap) :
  silent (diff.bind (diff.applyExcludes (Theme:=Theme) lib d generic genericObj)
            (fun generic =>
               diff.bind (diff.try "failed to encode object as YAML: "
                                   (diff.JSONToYAML lib generic))
                         (fun final => diff.ret final))).
Proof.
  apply silent_bind; [apply silent_applyExcludes|]. intros g.
  apply silent_bind; [apply silent_try|]. intros final. apply silent_ret.
Qed.

(** The last step alone. *)
Lemma to_yaml_run (generic : string) (w : world) :
  diff.bind (diff.try "failed to encode object as YAML: " (diff.JSONToYAML lib generic))
            (fun final => diff.ret final) w
  = (match diff.JSONToYAML lib generic with
     | diff.Ok final => diff.Ok final
     | diff.Err e => diff.Err (diff.Errorf "failed to encode object as YAML: " e)
     end, w).
Proof. unfold diff.bind. rewrite try_run. destruct (diff.JSONToYAML lib generic); reflexivity. Qed.

(** What the JSON path step writes: nothing, or one warning for a failed
    evaluation; and it prints nothing. *)
Lemma applyJSONPath_log (d : Differ) (generic : string) (genericObj : diff.genericMap)
    (w : world) :
  diff.printed (snd (diff.applyJSONPath lib d generic genericObj w)) = diff.printed w /\
  (diff.log (snd (diff.applyJSONPath lib d generic genericObj w)) = diff.log w \/
   exists jsonPath err,
     diff.compiledJSONPath (diff.opt d) = Some jsonPath /\
     diff.FindResults lib jsonPath genericObj = diff.Err err /\
     diff.log (snd (diff.applyJSONPath lib d generic genericObj w))
     = (diff.log w ++ [diff.Warnf "Failed to apply JSON path: %w" err])%list).
Proof.
  unfold diff.applyJSONPath.
  destruct (diff.compiledJSONPath (diff.opt d)) as [p|] eqn:Hpath; [|by split; [|left]].
  destruct (diff.FindResults lib p genericObj) as [[|[|r rest] results]|err] eqn:Hfind.
  - by split; [|left].
  - by split; [|left].
  - unfold diff.bind. rewrite !try_run.
    destruct (diff.json_Marshal lib (diff.AnyValue r)); [|by split; [|left]].
    rewrite !try_run. destruct (diff.json_Unmarshal lib x genericObj); by split; [|left].
  - split; [reflexivity|]. right. by exists p, err.
Qed.

(** After [preprocess], the log and the output are as it found them, or as
    the JSON path step left them. *)
Lemma preprocess_world (d : Differ) (o : Unstructured) (w : world)
    (r : diff.result string * world) :
  r = diff.preprocess lib d (Some o) w ->
  snd r = w \/
  exists generic genericObj, snd r = snd (diff.applyJSONPath lib d generic genericObj w).
Proof.
  intros Hr. unfold diff.preprocess in Hr.
  unfold diff.bind at 1 in Hr. rewrite try_run in Hr.
  destruct (diff.json_Marshal lib (diff.AnyUnstructured o)) as [generic|e];
    [|subst r; by left].
  unfold diff.bind at 1 in Hr. rewrite try_run in Hr.
  destruct (diff.json_Unmarshal lib generic None) as [genericObj|e];
    [|subst r; by left].
  unfold diff.bind at 1 in Hr. right. exists generic, genericObj.
  destruct (diff.applyJSONPath lib d generic genericObj w)
    as [[[generic' genericObj']|e] w1]; [|by subst r].
  rewrite (silent_after_JSONPath d generic' genericObj' w1 w1) in Hr. by subst r.
Qed.

End PreprocessFacts.

(** X13. A JSON path that finds nothing: when the evaluation succeeds with no
    result list, or with an empty first list, [preprocess] does exactly what
    it does with no JSON path configured, and logs no warning. *)
Theorem empty_JSONPath_result_is_ignored {Theme JSONPath Path Time : Type}
    (lib : diff.Library JSONPath Path Time) (options : diff.Options Theme JSONPath Path)
    (o : Unstructured) (w : diff.world Theme)
    (generic : string) (genericObj : diff.genericMap)
    (jsonPath : JSONPath) (results : list (list value)) :
  diff.json_Marshal lib (diff.AnyUnstructured o) = diff.Ok generic ->
  diff.json_Unmarshal lib generic None = diff.Ok genericObj ->
  diff.compiledJSONPath options = Some jsonPath ->
  diff.FindResults lib jsonPath genericObj = diff.Ok results ->
  (results = [] \/ exists more, results = [] :: more) ->
  diff.preprocess lib (diff.mkDiffer options) (Some o) w
  = diff.preprocess lib (diff.mkDiffer (without_JSONPath options)) (Some o) w.
Proof.
  intros Hmarshal Hunmarshal Hpath Hfind Hempty.
  rewrite !(preprocess_after_decode lib _ o w generic genericObj Hmarshal Hunmarshal).
  rewrite (bind_Ok _ _ w w (generic, genericObj)).
  2:{ unfold diff.applyJSONPath. cbn [diff.opt]. rewrite Hpath, Hfind.
      destruct Hempty as [->|[more ->]]; reflexivity. }
  rewrite (bind_Ok _ _ w w (generic, genericObj)) by reflexivity.
  reflexivity.
Qed.

(** X13 at work: the evaluation returns one empty list. *)
Lemma empty_JSONPath_result_is_ignored_sample :
  diff.preprocess (finding_library (diff.Ok [[]]))
                  (diff.mkDiffer (sample_options (Some ".status") ["spec"]))
                  (Some nginx) quiet
  = diff.preprocess (finding_library (diff.Ok [[]]))
                    (diff.mkDiffer (without_JSONPath (sample_options (Some ".status") ["spec"])))
                    (Some nginx) quiet.
Proof.
  apply (empty_JSONPath_result_is_ignored
           (finding_library (diff.Ok [[]])) (sample_options (Some ".status") ["spec"])
           nginx quiet "{object}" (Some ∅) ".status" [[]]);
    [reflexivity | reflexivity | reflexivity | reflexivity |].
  right. by exists [].
Defined.

(** X14. A JSON path that finds something, with no exclude paths: only the
    first result of the first list counts.  It is encoded, the encoding must
    decode into the map variable, and the text is the YAML of that encoding;
    the other results and the whole document play no part, and nothing is
    logged. *)
Theorem JSONPath_takes_the_first_result {Theme JSONPath Path Time : Type}
    (lib : diff.Library JSONPath Path Time) (options : diff.Options Theme JSONPath Path)
    (o : Unstructured) (w : diff.world Theme)
    (generic : string) (genericObj : diff.genericMap)
    (jsonPath : JSONPath) (r : value) (rest : list value) (more : list (list value)) :
  diff.json_Marshal lib (diff.AnyUnstructured o) = diff.Ok generic ->
  diff.json_Unmarshal lib generic None = diff.Ok genericObj ->
  diff.compiledJSONPath options = Some jsonPath ->
  diff.FindResults lib jsonPath genericObj = diff.Ok ((r :: rest) :: more) ->
  diff.parsedExcludePaths options = [] ->
  diff.preprocess lib (diff.mkDiffer options) (Some o) w
  = (match diff.json_Marshal lib (diff.AnyValue r) with
     | diff.Err e => diff.Err (diff.Errorf "failed to encode JSON path result as JSON: " e)
     | diff.Ok selected =>
         match diff.json_Unmarshal lib selected genericObj with
         | diff.Err e =>
             diff.Err (diff.Errorf "failed to re-decode JSON path result from JSON: " e)
         | diff.Ok _ =>
             match diff.JSONToYAML lib selected with
             | diff.Ok final => diff.Ok final
             | diff.Err e => diff.Err (diff.Errorf "failed to encode object as YAML: " e)
             end
         end
     end, w).
Proof.
  intros Hmarshal Hunmarshal Hpath Hfind Hexclude.
  rewrite (preprocess_after_decode lib _ o w generic genericObj Hmarshal Hunmarshal).
  unfold diff.applyJSONPath. cbn [diff.opt]. rewrite Hpath, Hfind.
  unfold diff.bind at 1. unfold diff.bind at 1. rewrite try_run.
  destruct (diff.json_Marshal lib (diff.AnyValue r)) as [selected|e]; [|reflexivity].
  unfold diff.bind at 1. rewrite try_run.
  destruct (diff.json_Unmarshal lib selected genericObj) as [merged|e]; [|reflexivity].
  unfold diff.ret at 1. cbv beta iota.
  unfold diff.applyExcludes. cbn [diff.opt]. rewrite Hexclude.
  rewrite (bind_Ok _ _ w w selected) by reflexivity.
  apply to_yaml_run.
Qed.

(** X14 at work: two results are found; the text is that of the first. *)
Lemma JSONPath_takes_the_first_result_sample :
  diff.preprocess (finding_library (diff.Ok [[VString "Running"; VNull]; [VNull]]))
                  (diff.mkDiffer (sample_options (Some ".status") []))
                  (Some nginx) quiet
  = (diff.Ok "{selected}", quiet).
Proof.
  apply (JSONPath_takes_the_first_result
           (finding_library (diff.Ok [[VString "Running"; VNull]; [VNull]]))
           (sample_options (Some ".status") []) nginx quiet "{object}" (Some ∅)
           ".status" (VString "Running") [VNull] [[VNull]]); reflexivity.
Defined.

(** X15. A JSON path that finds something, with exclude paths: the selected
    result is decoded into the map variable that already holds the decoded
    document; the exclude paths are removed from the map this leaves, and the
    text is the YAML of that map encoded again, not of the selected bytes. *)
Theorem excludes_apply_to_the_decoded_map {Theme JSONPath Path Time : Type}
    (lib : diff.Library JSONPath Path Time) (options : diff.Options Theme JSONPath Path)
    (o : Unstructured) (w : diff.world Theme)
    (generic selected : string) (genericObj merged pruned : diff.genericMap)
    (jsonPath : JSONPath) (r : value) (rest : list value) (more : list (list value))
    (excludePath : Path) (excludePaths : list Path) :
  diff.json_Marshal lib (diff.AnyUnstructured o) = diff.Ok generic ->
  diff.json_Unmarshal lib generic None = diff.Ok genericObj ->
  diff.compiledJSONPath options = Some jsonPath ->
  diff.FindResults lib jsonPath genericObj = diff.Ok ((r :: rest) :: more) ->
  diff.json_Marshal lib (diff.AnyValue r) = diff.Ok selected ->
  diff.json_Unmarshal lib selected genericObj = diff.Ok merged ->
  diff.parsedExcludePaths options = excludePath :: excludePaths ->
  fst (diff.removePaths lib merged (excludePath :: excludePaths) w) = diff.Ok pruned ->
  diff.preprocess lib (diff.mkDiffer options) (Some o) w
  = (match diff.json_Marshal lib (diff.AnyMap pruned) with
     | diff.Err e =>
         diff.Err (diff.Errorf "failed to encode exclude expression result as JSON: " e)
     | diff.Ok encoded =>
         match diff.JSONToYAML lib encoded with
         | diff.Ok final => diff.Ok final
         | diff.Err e => diff.Err (diff.Errorf "failed to encode object as YAML: " e)
         end
     end, w).
Proof.
  intros Hmarshal Hunmarshal Hpath Hfind Hselected Hmerged Hexclude Hpruned.
  rewrite (preprocess_after_decode lib _ o w generic genericObj Hmarshal Hunmarshal).
  rewrite (bind_Ok _ _ w w (selected, merged)).
  2:{ unfold diff.applyJSONPath. cbn [diff.opt]. rewrite Hpath, Hfind.
      rewrite (bind_Ok _ _ w w selected) by (by rewrite try_run, Hselected).
      rewrite (bind_Ok _ _ w w merged) by (by rewrite try_run, Hmerged).
      reflexivity. }
  cbv beta iota. unfold diff.applyExcludes. cbn [diff.opt]. rewrite Hexclude.
  assert (Hloop : diff.removePaths lib merged (excludePath :: excludePaths) w
                  = (diff.Ok pruned, w)).
  { rewrite (silent_removePaths lib merged (excludePath :: excludePaths) w w).
    by rewrite Hpruned. }
  unfold diff.bind at 1. unfold diff.bind at 1. rewrite Hloop. rewrite try_run.
  destruct (diff.json_Marshal lib (diff.AnyMap pruned)) as [encoded|e]; [|reflexivity].
  apply to_yaml_run.
Qed.

(** X15 at work: a result is found and one path is excluded; the text is the
    encoding of the map, not of the selected result. *)
Lemma excludes_apply_to_the_decoded_map_sample :
  diff.preprocess (finding_library (diff.Ok [[VString "Running"]]))
                  (diff.mkDiffer (sample_options (Some ".status") ["spec"]))
                  (Some nginx) quiet
  = (diff.Ok "{map}", quiet).
Proof.
  apply (excludes_apply_to_the_decoded_map
           (finding_library (diff.Ok [[VString "Running"]]))
           (sample_options (Some ".status") ["spec"]) nginx quiet
           "{object}" "{selected}" (Some ∅) (Some ∅) (Some ∅)
           ".status" (VString "Running") [] [] "spec" []); reflexivity.
Defined.

(** X16. The exclude paths are removed in order, each from what the one
    before left: removing a list of paths followed by another is removing the
    first list and then, from its result, the second; when a path of the
    first list fails, the second list is not tried. *)
Theorem removePaths_in_order {Theme JSONPath Path Time : Type}
    (lib : diff.Library JSONPath Path Time) (genericObj : diff.genericMap)
    (first second : list Path) (w : diff.world Theme) :
  diff.removePaths lib genericObj (first ++ second) w
  = diff.bind (diff.removePaths lib genericObj first)
              (fun remaining => diff.removePaths lib remaining second) w.
Proof.
  revert genericObj. induction first as [|p rest IH]; intros genericObj; [reflexivity|].
  cbn [app diff.removePaths]. unfold diff.bind. rewrite try_run.
  destruct (diff.RemovePath lib genericObj p) as [remaining|e]; [|reflexivity].
  rewrite IH. reflexivity.
Qed.

(** X17. What [preprocess] writes: it prints nothing, and it logs nothing,
    or one warning, and then only for a configured JSON path whose evaluation
    failed. *)
Theorem preprocess_logs_one_warning_at_most {Theme JSONPath Path Time : Type}
    (lib : diff.Library JSONPath Path Time) (d : @diff.Differ Theme JSONPath Path)
    (obj : option Unstructured) (w : diff.world Theme) :
  diff.printed (snd (diff.preprocess lib d obj w)) = diff.printed w /\
  (diff.log (snd (diff.preprocess lib d obj w)) = diff.log w \/
   exists jsonPath genericObj err,
     diff.compiledJSONPath (diff.opt d) = Some jsonPath /\
     diff.FindResults lib jsonPath genericObj = diff.Err err /\
     diff.log (snd (diff.preprocess lib d obj w))
     = (diff.log w ++ [diff.Warnf "Failed to apply JSON path: %w" err])%list).
Proof.
  split; [apply (stable_preprocess lib d obj w w)|].
  destruct obj as [o|]; [|by left].
  destruct (preprocess_world lib d o w _ eq_refl) as [->|(generic & genericObj & ->)];
    [by left|].
  destruct (applyJSONPath_log lib d generic genericObj w)
    as [_ [Hlog|(p & err & Hpath & Hfind & Hlog)]]; [by left|].
  right. by exists p, genericObj, err.
Qed.

(** X18. Errors of [PrintDiff]: when pre-processing the previous object
    fails, [PrintDiff] returns that error marked as that of the previous
    object, leaves log and output as that first call left them (the current
    object is not looked at) and prints nothing; when only the current object
    fails, it returns that error marked as that of the current object and
    prints nothing. *)
Theorem PrintDiff_returns_the_first_error {Theme JSONPath Path Time : Type}
    (lib : diff.Library JSONPath Path Time) (d : @diff.Differ Theme JSONPath Path)
    (oldObj newObj : option Unstructured) (lastSeen now : Time) (w : diff.world Theme) :
  (forall e,
      fst (diff.preprocess lib d oldObj w) = diff.Err e ->
      diff.PrintDiff lib d oldObj newObj lastSeen now w
      = (diff.Err (diff.Errorf "failed to process previous object: " e),
         snd (diff.preprocess lib d oldObj w)) /\
      diff.printed (snd (diff.PrintDiff lib d oldObj newObj lastSeen now w))
      = diff.printed w) /\
  (forall oldString e,
      fst (diff.preprocess lib d oldObj w) = diff.Ok oldString ->
      fst (diff.preprocess lib d newObj w) = diff.Err e ->
      fst (diff.PrintDiff lib d oldObj newObj lastSeen now w)
      = diff.Err (diff.Errorf "failed to process current object: " e) /\
      diff.printed (snd (diff.PrintDiff lib d oldObj newObj lastSeen now w))
      = diff.printed w).
Proof.
  split.
  - intros e Hold. destruct (stable_preprocess lib d oldObj w w) as [_ Hp1].
    unfold diff.PrintDiff, diff.bind, diff.wrap.
    destruct (diff.preprocess lib d oldObj w) as [r1 w1]. cbn [fst snd] in *.
    subst r1. by split.
  - intros oldString e Hold Hnew.
    destruct (stable_preprocess lib d oldObj w w) as [_ Hp1].
    unfold diff.PrintDiff, diff.bind, diff.wrap.
    destruct (diff.preprocess lib d oldObj w) as [r1 w1]. cbn [fst snd] in *. subst r1.
    destruct (stable_preprocess lib d newObj w1 w) as [Hf2 Hp2].
    destruct (diff.preprocess lib d newObj w1) as [r2 w2]. cbn [fst snd] in *.
    rewrite Hnew in Hf2. subst r2. cbn [fst snd]. split; [reflexivity|].
    by rewrite Hp2.
Qed.

(** X18 at work: with a library that cannot encode, the error is that of the
    previous object. *)
Lemma PrintDiff_returns_the_first_error_sample :
  diff.PrintDiff broken_library (diff.mkDiffer (sample_options None []))
                 (Some nginx) (Some nginx_v2) tt tt quiet
  = (diff.Err "failed to process previous object: failed to encode object as JSON: unsupported value",
     quiet).
Proof.
  exact (proj1 (proj1 (PrintDiff_returns_the_first_error
                         broken_library (diff.mkDiffer (sample_options None []))
                         (Some nginx) (Some nginx_v2) tt tt quiet)
                      "failed to encode object as JSON: unsupported value" eq_refl)).
Defined.

(** X19. An absent side of [PrintDiff]: a nil previous object is diffed as the
    empty text under the title (none) with the create theme, its time of last
    sight playing no part; a nil current object as the empty text under the
    title (none) with the delete theme; and with both nil the diff of two
    empty texts is printed with the delete theme. *)
Theorem PrintDiff_absent_side_is_empty_text {Theme JSONPath Path Time : Type}
    (lib : diff.Library JSONPath Path Time) (d : @diff.Differ Theme JSONPath Path)
    (o : Unstructured) (lastSeen now : Time) (w : diff.world Theme) :
  (forall text,
      fst (diff.preprocess lib d (Some o) w) = diff.Ok text ->
      diff.PrintDiff lib d None (Some o) lastSeen now w
      = (diff.Ok tt,
         diff.mkWorld (diff.log (snd (diff.preprocess lib d (Some o) w)))
           (diff.printed w
            ++ [diff.mkColorDiff "" text "(none)" (diff.diffTitle lib (Some o) now)
                  (diff.ContextLines (diff.opt d)) (diff.CreateColorTheme (diff.opt d))])) /\
      diff.PrintDiff lib d (Some o) None lastSeen now w
      = (diff.Ok tt,
         diff.mkWorld (diff.log (snd (diff.preprocess lib d (Some o) w)))
           (diff.printed w
            ++ [diff.mkColorDiff text "" (diff.diffTitle lib (Some o) lastSeen) "(none)"
                  (diff.ContextLines (diff.opt d)) (diff.DeleteColorTheme (diff.opt d))]))) /\
  diff.PrintDiff lib d None None lastSeen now w
  = (diff.Ok tt,
     diff.mkWorld (diff.log w)
       (diff.printed w
        ++ [diff.mkColorDiff "" "" "(none)" "(none)"
              (diff.ContextLines (diff.opt d)) (diff.DeleteColorTheme (diff.opt d))])).
Proof.
  split; [|reflexivity]. intros text Htext.
  destruct (stable_preprocess lib d (Some o) w w) as [_ Hp].
  unfold diff.PrintDiff, diff.bind, diff.wrap.
  change (diff.preprocess lib d None) with (diff.ret (Theme:=Theme) "").
  unfold diff.ret at 1.
  destruct (diff.preprocess lib d (Some o) w) as [r w1]. cbn [fst snd] in *. subst r.
  unfold diff.ret, diff.color_Print. rewrite Hp. by split.
Qed.

(** X19 at work: [nginx] with no previous revision, and with no current
    one. *)
Lemma PrintDiff_absent_side_is_empty_text_sample :
  diff.PrintDiff sample_library (diff.mkDiffer (sample_options None []))
                 None (Some nginx) tt tt quiet
  = (diff.Ok tt,
     diff.mkWorld []
       [diff.mkColorDiff "" "{}" "(none)"
          "Pod default/nginx v2026-01-01T00:00:00Z () (gen. 0)" 10 green]) /\
  diff.PrintDiff sample_library (diff.mkDiffer (sample_options None []))
                 (Some nginx) None tt tt quiet
  = (diff.Ok tt,
     diff.mkWorld []
       [diff.mkColorDiff "{}" "" "Pod default/nginx v2026-01-01T00:00:00Z () (gen. 0)"
          "(none)" 10 red]).
Proof.
  exact (proj1 (PrintDiff_absent_side_is_empty_text
                  sample_library (diff.mkDiffer (sample_options None [])) nginx tt tt quiet)
               "{}" eq_refl).
Defined.

Lemma has_space_append (a b : string) : has_space (a ++ " " ++ b) = true.
Proof.
  induction a as [|c a IH]; [reflexivity|].
  rewrite append_cons. cbn [has_space]. rewrite IH. apply orb_true_r.
Qed.

(** X20. The title of an object that is present has a space in it, so it is
    never the title (none) of an absent one, whatever the object holds and
    whatever the library returns. *)
Theorem diffTitle_of_an_object_is_not_none {JSONPath Path Time : Type}
    (lib : diff.Library JSONPath Path Time) (o : Unstructured) (t t' : Time) :
  has_space (diff.diffTitle lib (Some o) t) = true /\
  diff.diffTitle lib (Some o) t <> diff.diffTitle lib None t'.
Proof.
  assert (Hspace : has_space (diff.diffTitle lib (Some o) t) = true)
    by apply has_space_append.
  split; [exact Hspace|]. intros Heq. rewrite Heq in Hspace. discriminate.
Qed.
